(** * A model of [PDFGenerator] from [utils.py]

    Python strings are modelled as [list ascii] (ASCII inputs).  The [re]
    patterns of the module are written in a small backtracking regex
    language whose matcher follows Python's [sre] semantics for the
    constructs the module uses: literals, one-character classes, greedy
    and lazy repetition of a character class, alternation, capture groups,
    positive lookahead, [$] (no MULTILINE), [\Z] and [^] (MULTILINE).
    The PDF story is a list of flowable blocks. *)

From Stdlib Require Import Ascii String List Arith Lia Bool.
Import ListNotations.
Open Scope string_scope.
Open Scope list_scope.

Local Coercion list_ascii_of_string : string >-> list.

(* ------------------------------------------------------------------ *)
(** ** Characters and Python string helpers *)

Definition str := list ascii.

Definition chr_nl : ascii := "010"%char.

(** [str.isspace] / [re]'s [\s] on ASCII: \t \n \v \f \r, \x1c-\x1f, space. *)
Definition is_ws (c : ascii) : bool :=
  let n := nat_of_ascii c in
  (Nat.leb 9 n && Nat.leb n 13) || (Nat.leb 28 n && Nat.leb n 32).

Definition is_digit (c : ascii) : bool :=
  let n := nat_of_ascii c in Nat.leb 48 n && Nat.leb n 57.

Definition not_nl (c : ascii) : bool := negb (Ascii.eqb c chr_nl).

Definition any_char (c : ascii) : bool := true.

Fixpoint prefixb (w s : str) : bool :=
  match w, s with
  | [], _ => true
  | a :: w', b :: s' => Ascii.eqb a b && prefixb w' s'
  | _ :: _, [] => false
  end.

Fixpoint str_eqb (s t : str) : bool :=
  match s, t with
  | [], [] => true
  | a :: s', b :: t' => Ascii.eqb a b && str_eqb s' t'
  | _, _ => false
  end.

(** [str.lstrip()] and [str.strip()] *)
Fixpoint lstrip (s : str) : str :=
  match s with
  | c :: s' => if is_ws c then lstrip s' else s
  | [] => []
  end.

Definition rstrip (s : str) : str := rev (lstrip (rev s)).

Definition strip (s : str) : str := rstrip (lstrip s).

(** [s.split(c)] for a one-character separator *)
Fixpoint split_on (sep : ascii) (s : str) : list str :=
  match s with
  | [] => [[]]
  | c :: s' =>
      if Ascii.eqb c sep then [] :: split_on sep s'
      else match split_on sep s' with
           | l :: ls => (c :: l) :: ls
           | [] => [[c]]
           end
  end.

(** [s.split(c, 1)] *)
Fixpoint split_once (sep : ascii) (s : str) : list str :=
  match s with
  | [] => [[]]
  | c :: s' =>
      if Ascii.eqb c sep then [[]; s']
      else match split_once sep s' with
           | l :: ls => (c :: l) :: ls
           | [] => [[c]]
           end
  end.

(** [s.split(sep)] for a multi-character separator: non-overlapping,
    left to right. *)
Fixpoint split_str_go (fuel : nat) (sep s cur : str) : list str :=
  match fuel with
  | 0 => [rev cur ++ s]
  | S f =>
      match s with
      | [] => [rev cur]
      | c :: s' =>
          if prefixb sep s then rev cur :: split_str_go f sep (skipn (length sep) s) []
          else split_str_go f sep s' (c :: cur)
      end
  end.

Definition split_str (sep s : str) : list str := split_str_go (S (length s)) sep s [].

(** [str(i)] for a natural number *)
Fixpoint digits_go (fuel n : nat) (acc : str) : str :=
  match fuel with
  | 0 => acc
  | S f =>
      let acc' := ascii_of_nat (48 + n mod 10) :: acc in
      if Nat.ltb n 10 then acc' else digits_go f (n / 10) acc'
  end.

Definition digits (n : nat) : str := digits_go (S n) n [].

(* ------------------------------------------------------------------ *)
(** ** The regex language and its backtracking matcher *)

Inductive regex : Type :=
| RLit (w : str)                               (* literal text *)
| RCls (f : ascii -> bool)                     (* one character of a class *)
| RRep (f : ascii -> bool) (lo : nat) (greedy : bool)  (* f{lo,}, f{lo,}? *)
| RSeq (r1 r2 : regex)
| RAlt (r1 r2 : regex)
| RGroup (n : nat) (r : regex)
| RAhead (r : regex)                           (* (?=r) *)
| RDollar                                      (* $ without MULTILINE *)
| REndZ                                        (* \Z *)
| RBol.                                        (* ^ with MULTILINE *)

(** Matcher state: the character before the position, the remaining
    input and the captures (most recent first). *)
Record mstate : Type := MS {
  ms_prev : option ascii;
  ms_rest : str;
  ms_caps : list (nat * str)
}.

Definition prev_after (p : option ascii) (consumed : str) : option ascii :=
  match rev consumed with
  | [] => p
  | c :: _ => Some c
  end.

Definition advance (st : mstate) (n : nat) : mstate :=
  MS (prev_after (ms_prev st) (firstn n (ms_rest st)))
     (skipn n (ms_rest st)) (ms_caps st).

Fixpoint run (f : ascii -> bool) (s : str) : nat :=
  match s with
  | c :: s' => if f c then S (run f s') else 0
  | [] => 0
  end.

(** Repetition counts in the order the backtracking engine tries them. *)
Definition counts (lo n : nat) (greedy : bool) : list nat :=
  if greedy then rev (seq lo (S n - lo)) else seq lo (S n - lo).

Fixpoint try_counts (cs : list nat) (g : nat -> option mstate) : option mstate :=
  match cs with
  | [] => None
  | c :: cs' =>
      match g c with
      | Some x => Some x
      | None => try_counts cs' g
      end
  end.

Definition dollar_ok (s : str) : bool :=
  match s with
  | [] => true
  | [c] => Ascii.eqb c chr_nl
  | _ => false
  end.

Definition bol_ok (p : option ascii) : bool :=
  match p with
  | None => true
  | Some c => Ascii.eqb c chr_nl
  end.

Fixpoint mt (r : regex) (st : mstate) (k : mstate -> option mstate) : option mstate :=
  match r with
  | RLit w => if prefixb w (ms_rest st) then k (advance st (length w)) else None
  | RCls f =>
      match ms_rest st with
      | c :: _ => if f c then k (advance st 1) else None
      | [] => None
      end
  | RRep f lo g =>
      try_counts (counts lo (run f (ms_rest st)) g) (fun c => k (advance st c))
  | RSeq r1 r2 => mt r1 st (fun st' => mt r2 st' k)
  | RAlt r1 r2 =>
      match mt r1 st k with
      | Some x => Some x
      | None => mt r2 st k
      end
  | RGroup n r1 =>
      mt r1 st (fun st' =>
        k (MS (ms_prev st') (ms_rest st')
              ((n, firstn (length (ms_rest st) - length (ms_rest st')) (ms_rest st))
                 :: ms_caps st')))
  | RAhead r1 =>
      match mt r1 st Some with
      | Some _ => k st
      | None => None
      end
  | RDollar => if dollar_ok (ms_rest st) then k st else None
  | REndZ => match ms_rest st with [] => k st | _ => None end
  | RBol => if bol_ok (ms_prev st) then k st else None
  end.

(** A match object: text before, [group(0)], text after, groups. *)
Record rmatch : Type := RM {
  rm_before : str;
  rm_text : str;
  rm_after : str;
  rm_caps : list (nat * str)
}.

Definition match_at (r : regex) (p : option ascii) (before s : str) : option rmatch :=
  match mt r (MS p s []) Some with
  | Some st =>
      Some (RM before (firstn (length s - length (ms_rest st)) s) (ms_rest st) (ms_caps st))
  | None => None
  end.

(** [re.search]: leftmost start position, positions [0 .. len s]. *)
Fixpoint search_from (r : regex) (p : option ascii) (before_rev s : str) : option rmatch :=
  match match_at r p (rev before_rev) s with
  | Some m => Some m
  | None =>
      match s with
      | [] => None
      | c :: s' => search_from r (Some c) (c :: before_rev) s'
      end
  end.

Definition search (r : regex) (s : str) : option rmatch := search_from r None [] s.

(** [re.match]: anchored at position 0. *)
Definition rmatch_ (r : regex) (s : str) : option rmatch := match_at r None [] s.

(** [m.group(n)] for a group that took part in the match. *)
Definition group (m : rmatch) (n : nat) : str :=
  match find (fun p => Nat.eqb (fst p) n) (rm_caps m) with
  | Some (_, v) => v
  | None => []
  end.

(** [re.finditer]: successive non-overlapping matches (the pattern it is
    used with never matches the empty string). *)
Fixpoint finditer_go (fuel : nat) (r : regex) (p : option ascii) (s : str) : list rmatch :=
  match fuel with
  | 0 => []
  | S f =>
      match search_from r p [] s with
      | None => []
      | Some m =>
          m :: match rm_text m with
               | [] => match rm_after m with
                       | [] => []
                       | c :: t => finditer_go f r (Some c) t
                       end
               | _ => finditer_go f r (prev_after p (rm_before m ++ rm_text m)) (rm_after m)
               end
      end
  end.

Definition finditer (r : regex) (s : str) : list rmatch := finditer_go (S (length s)) r None s.

(* ------------------------------------------------------------------ *)
(** ** Dictionaries (insertion-ordered, as Python's [dict]) *)

Fixpoint lookup {V : Type} (k : str) (d : list (str * V)) : option V :=
  match d with
  | [] => None
  | (k', v) :: d' => if str_eqb k k' then Some v else lookup k d'
  end.

(** [d[k] = v]: an existing key keeps its place and gets the new value. *)
Fixpoint dict_set {V : Type} (d : list (str * V)) (k : str) (v : V) : list (str * V) :=
  match d with
  | [] => [(k, v)]
  | (k', v') :: d' => if str_eqb k k' then (k', v) :: d' else (k', v') :: dict_set d' k v
  end.

(** [int(k)] on a string of decimal digits *)
Definition parse_nat (k : str) : nat :=
  fold_left (fun acc c => acc * 10 + (nat_of_ascii c - 48)) k 0.

(** [sorted(keys, key=int)]: a stable insertion sort. *)
Fixpoint insert_by_int (k : str) (ks : list str) : list str :=
  match ks with
  | [] => [k]
  | k' :: ks' => if Nat.ltb (parse_nat k) (parse_nat k') then k :: ks else k' :: insert_by_int k ks'
  end.

Definition sorted_by_int (ks : list str) : list str :=
  fold_right insert_by_int [] (rev ks).

(* ------------------------------------------------------------------ *)
(** ** Story blocks (reportlab flowables) *)

Inductive pstyle : Type :=
| TitleStyle | SubtitleStyle | HeadingStyle | SubheadingStyle
| NormalStyle | BulletStyle | TOCStyle.

(** [Spacer] sizes in tenths of a point: [0.2 * inch] is 144, [inch] 720. *)
Inductive flowable : Type :=
| Paragraph (text : str) (style : pstyle)
| ListFlowable (items : list str)    (* ListItem(Paragraph(t, bullet_style)) each *)
| Table (rows : list (list str))
| Spacer (width height : nat)
| PageBreak.

(* ------------------------------------------------------------------ *)
(** ** [get_default_section_title] *)

Definition section_titles : list (str * str) :=
  [("1" : str, "Introduction" : str);
   ("2" : str, "Goals and Objectives" : str);
   ("3" : str, "User Personas and Roles" : str);
   ("4" : str, "Functional Requirements" : str);
   ("5" : str, "Non-Functional Requirements" : str);
   ("6" : str, "User Interface (UI) / User Experience (UX) Considerations" : str);
   ("7" : str, "Data Requirements" : str);
   ("8" : str, "System Architecture & Technical Considerations" : str);
   ("9" : str, "Release Criteria & Success Metrics" : str);
   ("10" : str, "Timeline & Milestones" : str);
   ("11" : str, "Team Structure" : str);
   ("12" : str, "User Stories" : str);
   ("13" : str, "Cost Estimation" : str);
   ("14" : str, "Open Issues & Future Considerations" : str);
   ("15" : str, "Appendix" : str);
   ("16" : str, "Points Requiring Further Clarification" : str)].

Definition get_default_section_title (section_num : str) : str :=
  match lookup section_num section_titles with
  | Some t => t
  | None => ("Section " : str) ++ section_num
  end.

(* ------------------------------------------------------------------ *)
(** ** The module's regular expressions *)

(** [\s+] *)
Definition ws_plus : regex := RRep is_ws 1 true.

(** [(?={j}\.\s+|$)] *)
Definition next_boundary (j : nat) : regex :=
  RAlt (RSeq (RLit (digits j ++ ".")) ws_plus) RDollar.

(** [rf'{i}\.\s+{re.escape(section_title)}(.*?)(?={i+1}\.\s+|$)'], DOTALL *)
Definition strict_pattern (i : nat) (section_title : str) : regex :=
  RSeq (RLit (digits i ++ "."))
   (RSeq ws_plus
    (RSeq (RLit section_title)
     (RSeq (RGroup 1 (RRep any_char 0 false)) (RAhead (next_boundary (S i)))))).

(** [rf'{i}\.\s+(.*?)(?={i+1}\.\s+|$)'], DOTALL *)
Definition simple_pattern (i : nat) : regex :=
  RSeq (RLit (digits i ++ "."))
   (RSeq ws_plus
    (RSeq (RGroup 1 (RRep any_char 0 false)) (RAhead (next_boundary (S i))))).

(** [rf'{section_num}\.\s+(.*?)(?=\n|$)'] (no DOTALL) *)
Definition title_pattern (section_num : str) : regex :=
  RSeq (RLit (section_num ++ "."))
   (RSeq ws_plus
    (RSeq (RGroup 1 (RRep not_nl 0 false)) (RAhead (RAlt (RLit [chr_nl]) RDollar)))).

(** [r"Product Requirements Document:?\s*([^\n]+)"] *)
Definition project_name_pattern : regex :=
  RSeq (RLit "Product Requirements Document")
   (RSeq (RAlt (RLit ":") (RLit []))
    (RSeq (RRep is_ws 0 true) (RGroup 1 (RRep not_nl 1 true)))).

Definition is_marker (c : ascii) : bool := Ascii.eqb c "-" || Ascii.eqb c "*".

(** [r'^\s*[\-\*]\s'], MULTILINE *)
Definition bullet_pattern : regex :=
  RSeq RBol (RSeq (RRep is_ws 0 true) (RSeq (RCls is_marker) (RCls is_ws))).

(** [r'(\d+)\.(\d+)\s+(.*?)(?=\d+\.\d+|\Z)'], DOTALL *)
Definition subsection_pattern : regex :=
  RSeq (RGroup 1 (RRep is_digit 1 true))
   (RSeq (RLit ".")
    (RSeq (RGroup 2 (RRep is_digit 1 true))
     (RSeq ws_plus
      (RSeq (RGroup 3 (RRep any_char 0 false))
       (RAhead (RAlt (RSeq (RRep is_digit 1 true) (RSeq (RLit ".") (RRep is_digit 1 true)))
                     REndZ)))))).

(* ------------------------------------------------------------------ *)
(** ** The methods of [PDFGenerator]; each takes and returns the story *)

Definition nonempty {A : Type} (s : list A) : bool :=
  match s with [] => false | _ => true end.

(** [extract_project_name] (both definitions in the class are the same) *)
Definition extract_project_name (content : str) : str :=
  match search project_name_pattern content with
  | Some m => strip (group m 1)
  | None => "Project Requirements Document"
  end.

Definition create_cover_page (story : list flowable) (date_str project_name : str)
  : list flowable :=
  story ++ [Paragraph "Product Requirements Document:" TitleStyle;
            Paragraph project_name SubtitleStyle;
            Spacer 10 144;
            Paragraph (("Generated on: " : str) ++ date_str) NormalStyle;
            Spacer 10 720].

Definition toc_entries : list str := map snd section_titles.

Definition create_table_of_contents (story : list flowable) : list flowable :=
  fold_left (fun story ie => story ++ [Paragraph (digits (fst ie) ++ ". " ++ snd ie) TOCStyle])
    (combine (seq 1 16) toc_entries)
    (story ++ [Paragraph "Table of Contents" SubtitleStyle; Spacer 10 144]).

Definition para (p : str) : flowable := Paragraph p NormalStyle.

(** The mixed bullet/paragraph loop of [add_content_with_formatting]. *)
Fixpoint format_lines (lines : list str) (items paragraphs : list str)
    (story : list flowable) : list flowable :=
  match lines with
  | [] =>
      let story := if nonempty items then story ++ [ListFlowable items] else story in
      story ++ map para paragraphs
  | line :: rest =>
      match strip line with
      | [] => format_lines rest items paragraphs story
      | c :: tl =>
          if is_marker c then
            format_lines rest (items ++ [strip tl]) [] (story ++ map para paragraphs)
          else
            let story := if nonempty items then story ++ [ListFlowable items] else story in
            format_lines rest [] (paragraphs ++ [c :: tl]) story
      end
  end.

Definition add_content_with_formatting (story : list flowable) (content : str)
  : list flowable :=
  match search bullet_pattern content with
  | Some _ => format_lines (split_on chr_nl content) [] [] story
  | None =>
      fold_left (fun story p => if nonempty (strip p) then story ++ [para (strip p)] else story)
        (split_str [chr_nl; chr_nl] content) story
  end.

Definition header_row : list str := map list_ascii_of_string ["ID"; "Requirement Description"; "Priority"; "Dependencies"].
Definition placeholder_row : list str := map list_ascii_of_string ["FR01"; "Placeholder requirement"; "High"; "-"].

Definition has_char (c : ascii) (s : str) : bool := existsb (Ascii.eqb c) s.

Definition table_step (rows : list (list str)) (line : str) : list (list str) :=
  let line := strip line in
  if prefixb "FR" line && has_char "|" line then
    let cells := map strip (split_on "|" line) in
    if Nat.leb 4 (length cells) then rows ++ [firstn 4 cells] else rows
  else if prefixb "ID" line && has_char "|" line then rows
  else rows.

Definition add_functional_requirements_table (story : list flowable) (content : str)
  : list flowable :=
  let rows := fold_left table_step (split_on chr_nl content) [header_row] in
  let rows := if Nat.eqb (length rows) 1 then rows ++ [placeholder_row] else rows in
  story ++ [Table rows].

Definition placeholder_text : str := "No content provided for this section.".

(** The body of the first loop of [parse_and_add_content]. *)
Definition find_section (content : str) (i : nat) : str :=
  let section_title := get_default_section_title (digits i) in
  match search (strict_pattern i section_title) content with
  | Some m => digits i ++ ". " ++ section_title ++ group m 1
  | None =>
      match search (simple_pattern i) content with
      | Some m => rm_text m
      | None => digits i ++ ". " ++ section_title ++ [chr_nl; chr_nl] ++ placeholder_text
      end
  end.

Definition collect_sections (content : str) : list (str * str) :=
  fold_left (fun sections i => dict_set sections (digits i) (find_section content i))
    (seq 1 16) [].

Definition section_title_of (section_num section_content : str) : str :=
  match rmatch_ (title_pattern section_num) section_content with
  | Some m => group m 1
  | None => get_default_section_title section_num
  end.

(** [content_text]: the stripped text after the first line; empty when the
    section is a single line (the code then adds nothing). *)
Definition content_text_of (section_content : str) : str :=
  match split_once chr_nl section_content with
  | [_; rest] => strip rest
  | _ => []
  end.

Definition add_section (sections : list (str * str)) (story : list flowable)
    (section_num : str) : list flowable :=
  let section_content := match lookup section_num sections with Some v => v | None => [] end in
  let section_title := section_title_of section_num section_content in
  let story := story ++ [Paragraph (section_num ++ ". " ++ section_title) HeadingStyle] in
  let story :=
    match split_once chr_nl section_content with
    | [_; rest] =>
        let content_text := strip rest in
        if nonempty content_text then add_content_with_formatting story content_text else story
    | _ => story
    end in
  story ++ [Spacer 10 144].

Definition parse_and_add_content (story : list flowable) (content : str) : list flowable :=
  let sections := collect_sections content in
  fold_left (add_section sections) (sorted_by_int (map fst sections)) story.

(** The sections as the second loop of [parse_and_add_content] sees them:
    number, title and content text. *)
Definition extracted_sections (content : str) : list (str * (str * str)) :=
  map (fun kv => (fst kv, (section_title_of (fst kv) (snd kv), content_text_of (snd kv))))
    (collect_sections content).

(** [generate] with the date [datetime.now()] gives as a parameter; the
    result is the story handed to [doc.build]. *)
Definition generate (date_str content : str) : list flowable :=
  let project_name := extract_project_name content in
  let story := create_cover_page [] date_str project_name in
  let story := create_table_of_contents story in
  let story := story ++ [PageBreak] in
  parse_and_add_content story content.

Definition extract_subsections (section_content : str) : list (str * str) :=
  fold_left (fun subsections m => dict_set subsections (group m 2) (rm_text m))
    (finditer subsection_pattern section_content) [].

(* ------------------------------------------------------------------ *)
(** ** The helper methods no other method calls *)

(** [n\.\s+w] *)
Definition lit_ws (n w : str) : regex := RSeq (RLit (n ++ ".")) (RSeq ws_plus (RLit w)).

(** [(.*?)], DOTALL *)
Definition lazy_any : regex := RRep any_char 0 false.

(** [n\.\s+w(.*?)(?=m\.\s+v|$)], DOTALL *)
Definition between (n w m v : str) : regex :=
  RSeq (lit_ws n w) (RSeq (RGroup 1 lazy_any) (RAhead (RAlt (lit_ws m v) RDollar))).

(** The table of [extract_sections], in its order. *)
Definition section_patterns : list (regex * str) :=
  [(between "1" "Introduction" "2" "Goals", "1" : str);
   (between "2" "Goals and Objectives" "3" "User", "2" : str);
   (between "3" "User Personas and Roles" "4" "Functional", "3" : str);
   (between "4" "Functional Requirements" "5" "Non-Functional", "4" : str);
   (between "5" "Non-Functional Requirements" "6" "User Interface", "5" : str);
   (* [6\.\s+User Interface.*?Considerations(.*?)(?=7\.\s+Data|$)] *)
   (RSeq (lit_ws "6" "User Interface")
     (RSeq lazy_any
      (RSeq (RLit "Considerations")
       (RSeq (RGroup 1 lazy_any) (RAhead (RAlt (lit_ws "7" "Data") RDollar))))), "6" : str);
   (between "7" "Data Requirements" "8" "System", "7" : str);
   (between "8" "System Architecture" "9" "Release", "8" : str);
   (between "9" "Release Criteria" "10" "Timeline", "9" : str);
   (between "10" "Timeline" "11" "Team", "10" : str);
   (between "11" "Team Structure" "12" "User Stories", "11" : str);
   (between "12" "User Stories" "13" "Cost", "12" : str);
   (between "13" "Cost Estimation" "14" "Open", "13" : str);
   (between "14" "Open Issues" "15" "Appendix", "14" : str);
   (between "15" "Appendix" "16" "Points", "15" : str);
   (* [16\.\s+Points Requiring(.*?)$] *)
   (RSeq (lit_ws "16" "Points Requiring") (RSeq (RGroup 1 lazy_any) RDollar), "16" : str)].

Definition extract_sections_step (content : str) (sections : list (str * str))
    (pn : regex * str) : list (str * str) :=
  let (pattern, section_num) := pn in
  match search pattern content with
  | Some m => dict_set sections section_num (rm_text m)
  | None => dict_set sections section_num
              (section_num ++ ". " ++ get_default_section_title section_num)
  end.

Definition extract_sections (content : str) : list (str * str) :=
  fold_left (extract_sections_step content) section_patterns [].

(** [\d+] *)
Definition digits_plus : regex := RRep is_digit 1 true.

(** [(.*?)(?=\n|\Z)] (no DOTALL) *)
Definition line_rest : regex :=
  RSeq (RGroup 1 (RRep not_nl 0 false)) (RAhead (RAlt (RLit [chr_nl]) REndZ)).

(** [r'\d+\.\s+(.*?)(?=\n|\Z)'] *)
Definition section_title_pattern : regex :=
  RSeq digits_plus (RSeq (RLit ".") (RSeq ws_plus line_rest)).

(** [r'\d+\.\d+\s+(.*?)(?=\n|\Z)'] *)
Definition subsection_title_pattern : regex :=
  RSeq digits_plus (RSeq (RLit ".") (RSeq digits_plus (RSeq ws_plus line_rest))).

(** [.*?\n] and a final capture group of [.*], DOTALL *)
Definition after_line : regex :=
  RSeq lazy_any (RSeq (RLit [chr_nl]) (RGroup 1 (RRep any_char 0 true))).

(** [\d+\.\s+.*?\n] and a final capture group of [.*], DOTALL *)
Definition clean_section_pattern : regex :=
  RSeq digits_plus (RSeq (RLit ".") (RSeq ws_plus after_line)).

(** [\d+\.\d+\s+.*?\n] and a final capture group of [.*], DOTALL *)
Definition clean_subsection_pattern : regex :=
  RSeq digits_plus (RSeq (RLit ".") (RSeq digits_plus (RSeq ws_plus after_line))).

Definition get_section_title (section_num content : str) : str :=
  match search section_title_pattern content with
  | Some m => strip (group m 1)
  | None => get_default_section_title section_num
  end.

Definition get_subsection_title (subsection_num content : str) : str :=
  match search subsection_title_pattern content with
  | Some m => strip (group m 1)
  | None => ("Subsection " : str) ++ subsection_num
  end.

(** The fallback of both cleaning methods: everything after the first
    line, trimmed, or [""] for a single line. *)
Definition after_first_line (content : str) : str :=
  match split_once chr_nl content with
  | [_; rest] => strip rest
  | _ => []
  end.

Definition clean_section_content (content : str) : str :=
  match search clean_section_pattern content with
  | Some m => strip (group m 1)
  | None => after_first_line content
  end.

Definition clean_subsection_content (content : str) : str :=
  match search clean_subsection_pattern content with
  | Some m => strip (group m 1)
  | None => after_first_line content
  end.

(* ------------------------------------------------------------------ *)
(** ** Auxiliary definitions used in the statements *)

(** The section text synthesised for a section the input lacks. *)
Definition placeholder_section (i : nat) : str :=
  digits i ++ ". " ++ get_default_section_title (digits i) ++ [chr_nl; chr_nl] ++ placeholder_text.

(** Lines joined with line breaks, for writing inputs. *)
Fixpoint unlines (ls : list str) : str :=
  match ls with
  | [] => []
  | [l] => l
  | l :: ls' => l ++ chr_nl :: unlines ls'
  end.

Definition text (ls : list string) : str := unlines (map list_ascii_of_string ls).

(** The data row that claim C7 describes for one line: after trimming, the
    line starts with "FR", contains a '|', and splitting on '|' with each
    cell trimmed gives at least four cells, of which the first four form
    the row. *)
Definition spec_fr_row (line : str) : option (list str) :=
  let l := strip line in
  let cells := map strip (split_on "|" l) in
  if prefixb "FR" l && has_char "|" l && Nat.leb 4 (length cells)
  then Some (firstn 4 cells) else None.

Fixpoint spec_fr_rows (lines : list str) : list (list str) :=
  match lines with
  | [] => []
  | l :: ls =>
      match spec_fr_row l with
      | Some r => r :: spec_fr_rows ls
      | None => spec_fr_rows ls
      end
  end.

(** The value the last match with minor ordinal [k] carries, if any. *)
Definition last_capture (k : str) (ms : list rmatch) : option str :=
  fold_left (fun acc m => if str_eqb (group m 2) k then Some (rm_text m) else acc) ms None.

Definition not_table (b : flowable) : Prop :=
  match b with Table _ => False | _ => True end.

Definition is_table (b : flowable) : bool :=
  match b with Table _ => true | _ => false end.

(** [t] starts with the literal [w] followed by a whitespace character:
    where a pattern [w\s+...] can start. *)
Definition starts_mark (w t : str) : bool :=
  prefixb w t && Nat.ltb 0 (run is_ws (skipn (length w) t)).

(** Some non-empty suffix of [t] satisfies [q]. *)
Fixpoint occurs_by (q : str -> bool) (t : str) : bool :=
  match t with
  | [] => false
  | _ :: t' => q t || occurs_by q t'
  end.

(** [t] is empty or ends with a line break. *)
Definition ends_nl (t : str) : bool :=
  match rev t with
  | [] => true
  | c :: _ => Ascii.eqb c chr_nl
  end.

Definition has_no_nl (w : str) : bool := forallb not_nl w.

(** Where the lookahead [(?={j}\.\s+|$)] holds. *)
Definition at_boundary (j : nat) (t : str) : bool :=
  starts_mark (digits j ++ ".") t || dollar_ok t.

(** Whether a pattern matches at some position of [t] ([re.search] found
    something), scanning from a position whose previous character is [p]. *)
Fixpoint found (r : regex) (p : option ascii) (t : str) : bool :=
  match mt r (MS p t []) Some with
  | Some _ => true
  | None => match t with [] => false | c :: t' => found r (Some c) t' end
  end.

(** After its leading whitespace, [t] starts with a marker and a
    whitespace character. *)
Definition bullet_at (t : str) : bool :=
  match lstrip t with
  | m :: c :: _ => is_marker m && is_ws c
  | _ => false
  end.

(** A line that switches [add_content_with_formatting] to its mixed mode:
    after leading whitespace a marker followed by a whitespace character,
    or a bare marker closing a line that is not the last one (the line
    break after it is whitespace too). *)
Definition marker_line (l : str) (is_last : bool) : bool :=
  match lstrip l with
  | m :: c :: _ => is_marker m && is_ws c
  | [m] => is_marker m && negb is_last
  | [] => false
  end.

Fixpoint lines_trigger (ls : list str) : bool :=
  match ls with
  | [] => false
  | [l] => marker_line l true
  | l :: ls' => marker_line l false || lines_trigger ls'
  end.

(** The mixed mode as claim C9 describes it, on the trimmed non-blank
    lines: a line starting with '-' or '*' is a bullet item with its first
    character dropped and the rest trimmed, consecutive items form one
    list, and every other line is a paragraph of its own. *)
Definition starts_with_marker (l : str) : bool :=
  match l with m :: _ => is_marker m | [] => false end.

Fixpoint mixed_blocks (ls : list str) : list flowable :=
  match ls with
  | [] => []
  | l :: ls' =>
      if starts_with_marker l then
        match mixed_blocks ls' with
        | ListFlowable its :: bs => ListFlowable (strip (tl l) :: its) :: bs
        | bs => ListFlowable [strip (tl l)] :: bs
        end
      else para l :: mixed_blocks ls'
  end.

Definition merge_items (items : list str) (bs : list flowable) : list flowable :=
  match bs with
  | ListFlowable its :: bs' => ListFlowable (items ++ its) :: bs'
  | _ => ListFlowable items :: bs
  end.

(** A canonical title as the header patterns need it: it starts with a
    non-whitespace character and has no line break. *)
Definition title_ok (t : str) : bool :=
  match t with c :: _ => negb (is_ws c) | [] => false end && has_no_nl t.

(** The header line of section [i] with its canonical title. *)
Definition header (i : nat) : str :=
  digits i ++ ". " ++ get_default_section_title (digits i) ++ [chr_nl].

(** A well-formed input: a preamble [b 0], then for [i = 1 .. 16] the
    header of section [i] followed by its body [b i]. *)
Definition doc_segment (b : nat -> str) (j : nat) : str := header j ++ b j.

Definition well_formed_doc (b : nat -> str) : str :=
  b 0 ++ concat (map (doc_segment b) (seq 1 16)).

Definition pre_doc (b : nat -> str) (i : nat) : str :=
  b 0 ++ concat (map (doc_segment b) (seq 1 (i - 1))).

Definition post_doc (b : nat -> str) (i : nat) : str :=
  concat (map (doc_segment b) (seq (S i) (16 - i))).

(** No stray ordinal-like marker: nowhere a numeral [1 .. 17], a period
    and a whitespace character. *)
Definition no_markers (t : str) : bool :=
  forallb (fun n => negb (occurs_by (starts_mark (digits n ++ ".")) t)) (seq 1 17).

(** What the header of section [i] offers to the patterns: a usable
    title, numerals free of line breaks, and no marker of [i] inside an
    earlier header. *)
Definition header_facts (i : nat) : bool :=
  title_ok (get_default_section_title (digits i)) &&
  has_no_nl (digits i ++ ". ") &&
  has_no_nl (digits i ++ ".") &&
  has_no_nl (digits (S i) ++ ".") &&
  match digits (S i) with d :: _ => negb (Ascii.eqb d chr_nl) | [] => false end &&
  forallb (fun j => negb (occurs_by (starts_mark (digits i ++ ".")) (header j))) (seq 1 (i - 1)).

(** Sample section bodies: a preamble, fifteen bodies ending with a line
    break and a last body without one. *)
Definition sample_bodies (j : nat) : str :=
  match j with
  | 0 => "Product Requirements Document: Acme Portal" ++ [chr_nl]
  | 16 => "Who approves the budget?"
  | _ => "- first point" ++ [chr_nl] ++ "More text." ++ [chr_nl]
  end.

(** The value [extract_sections] stores for one entry of its table. *)
Definition section_value (content : str) (pn : regex * str) : str :=
  match search (fst pn) content with
  | Some m => rm_text m
  | None => snd pn ++ ". " ++ get_default_section_title (snd pn)
  end.

(** A block [add_content_with_formatting] may add: a non-empty trimmed
    paragraph in the normal style, or a non-empty bullet list of trimmed
    items. *)
Definition text_block (b : flowable) : Prop :=
  match b with
  | Paragraph t NormalStyle => t <> [] /\ strip t = t
  | ListFlowable its => its <> [] /\ Forall (fun t => strip t = t) its
  | _ => False
  end.

(** The blocks [parse_and_add_content] adds for section [i]: its heading,
    the formatted content text (nothing when it is empty) and a spacer. *)
Definition section_body (content : str) (i : nat) : list flowable :=
  let ct := content_text_of (find_section content i) in
  if nonempty ct then add_content_with_formatting [] ct else [].

Definition section_blocks (content : str) (i : nat) : list flowable :=
  Paragraph (digits i ++ ". " ++ section_title_of (digits i) (find_section content i)) HeadingStyle ::
  section_body content i ++ [Spacer 10 144].


Definition sample_prd : str :=
  text ["Product Requirements Document: Acme Portal"; "1. Introduction"; "Welcome.";
        "2. Goals and Objectives"; "- ship it"; "- keep it simple";
        "16. Points Requiring Further Clarification"; "Who pays?"; ""].

(* ================================================================== *)
(** * Lemmas *)

(* ------------------------------------------------------------------ *)
(** ** Strings and dictionaries *)

Lemma str_eqb_eq : forall s t, str_eqb s t = true <-> s = t.
Proof.
  induction s as [|a s IH]; destruct t as [|b t]; simpl; split; intro H;
    try discriminate; try reflexivity.
  - apply andb_prop in H as [H1 H2]. apply Ascii.eqb_eq in H1. apply IH in H2. subst. reflexivity.
  - injection H as <- <-. rewrite Ascii.eqb_refl, (proj2 (IH s) eq_refl). reflexivity.
Qed.

Lemma str_eqb_refl : forall s, str_eqb s s = true.
Proof. intro s. apply str_eqb_eq. reflexivity. Qed.

Lemma str_eqb_neq : forall s t, s <> t -> str_eqb s t = false.
Proof.
  intros s t H. destruct (str_eqb s t) eqn:E; [|reflexivity].
  apply str_eqb_eq in E. contradiction.
Qed.

Lemma collect_sections_eq : forall content,
  collect_sections content = map (fun i => (digits i, find_section content i)) (seq 1 16).
Proof. intro content. reflexivity. Qed.

Lemma lookup_sections : forall {V : Type} (g : nat -> V) i, 1 <= i <= 16 ->
  lookup (digits i) (map (fun j => (digits j, g j)) (seq 1 16)) = Some (g i).
Proof.
  intros V g i Hi.
  do 17 (destruct i as [|i]; [try lia; reflexivity|]). lia.
Qed.

Lemma extracted_sections_eq : forall content,
  extracted_sections content =
  map (fun i => (digits i, (section_title_of (digits i) (find_section content i),
                            content_text_of (find_section content i)))) (seq 1 16).
Proof.
  intro content. unfold extracted_sections. rewrite collect_sections_eq, map_map. reflexivity.
Qed.


Lemma placeholder_section_view : forall i, 1 <= i <= 16 ->
  section_title_of (digits i) (placeholder_section i) = get_default_section_title (digits i) /\
  content_text_of (placeholder_section i) = placeholder_text.
Proof.
  intros i Hi.
  do 17 (destruct i as [|i]; [try lia; split; vm_compute; reflexivity|]). lia.
Qed.

(** ** The functional-requirements table *)

Lemma table_step_spec : forall rows line,
  table_step rows line =
  rows ++ match spec_fr_row line with Some r => [r] | None => [] end.
Proof.
  intros rows line. unfold table_step, spec_fr_row. rewrite length_map.
  destruct (prefixb "FR" (strip line) && has_char "|" (strip line)) eqn:E1;
    destruct (Nat.leb 4 (length (split_on "|" (strip line)))) eqn:E2;
    cbn [andb]; try rewrite app_nil_r; try reflexivity;
    destruct (prefixb "ID" (strip line) && has_char "|" (strip line)); reflexivity.
Qed.

Lemma fold_table_step : forall lines rows,
  fold_left table_step lines rows = rows ++ spec_fr_rows lines.
Proof.
  induction lines as [|l ls IH]; intro rows; simpl.
  - rewrite app_nil_r. reflexivity.
  - rewrite IH, table_step_spec, <- app_assoc.
    destruct (spec_fr_row l); reflexivity.
Qed.

(** ** Dictionaries *)

Lemma lookup_dict_set : forall {V : Type} (d : list (str * V)) k v q,
  lookup q (dict_set d k v) = if str_eqb q k then Some v else lookup q d.
Proof.
  intros V d k v q. induction d as [|[a x] d IH]; simpl.
  - reflexivity.
  - destruct (str_eqb k a) eqn:Eka.
    + apply str_eqb_eq in Eka. subst a. simpl.
      destruct (str_eqb q k); reflexivity.
    + simpl. rewrite IH.
      destruct (str_eqb q k) eqn:Eqk; [|reflexivity].
      apply str_eqb_eq in Eqk. subst q. rewrite Eka. reflexivity.
Qed.

Lemma keys_dict_set : forall {V : Type} (d : list (str * V)) k v,
  map fst (dict_set d k v) =
  if existsb (fun p => str_eqb k (fst p)) d then map fst d else map fst d ++ [k].
Proof.
  intros V d k v. induction d as [|[a x] d IH]; simpl.
  - reflexivity.
  - destruct (str_eqb k a) eqn:Eka; simpl.
    + apply str_eqb_eq in Eka. subst. reflexivity.
    + rewrite IH. destruct (existsb _ d); reflexivity.
Qed.

Lemma nodup_dict_set : forall {V : Type} (d : list (str * V)) k v,
  NoDup (map fst d) -> NoDup (map fst (dict_set d k v)).
Proof.
  intros V d k v H. rewrite keys_dict_set.
  destruct (existsb (fun p => str_eqb k (fst p)) d) eqn:E; [exact H|].
  apply NoDup_app; [exact H | constructor; [intros []|constructor] |].
  intros x Hx [Hk|[]]. subst x.
  apply in_map_iff in Hx as [[a y] [Ha Hin]]. simpl in Ha. subst a.
  assert (existsb (fun p => str_eqb k (fst p)) d = true) as C.
  { apply existsb_exists. exists (k, y). split; [exact Hin | apply str_eqb_refl]. }
  congruence.
Qed.

Lemma fold_dict_set_lookup : forall {A V : Type} (key : A -> str) (val : A -> V) ms d q,
  lookup q (fold_left (fun d m => dict_set d (key m) (val m)) ms d) =
  fold_left (fun acc m => if str_eqb (key m) q then Some (val m) else acc) ms (lookup q d).
Proof.
  intros A V key val ms. induction ms as [|m ms IH]; intros d q; simpl.
  - reflexivity.
  - rewrite IH, lookup_dict_set. f_equal.
    destruct (str_eqb q (key m)) eqn:E1, (str_eqb (key m) q) eqn:E2; try reflexivity;
      [apply str_eqb_eq in E1 | apply str_eqb_eq in E2]; subst;
      rewrite str_eqb_refl in *; discriminate.
Qed.

Lemma fold_dict_set_nodup : forall {A V : Type} (key : A -> str) (val : A -> V) ms d,
  NoDup (map fst d) ->
  NoDup (map fst (fold_left (fun d m => dict_set d (key m) (val m)) ms d)).
Proof.
  intros A V key val ms. induction ms as [|m ms IH]; intros d H; simpl.
  - exact H.
  - apply IH, nodup_dict_set, H.
Qed.

(** ** Blocks other than tables *)

Lemma format_lines_no_table : forall lines items paragraphs story,
  Forall not_table story -> Forall not_table (format_lines lines items paragraphs story).
Proof.
  induction lines as [|l ls IH]; intros items paragraphs story H; simpl.
  - apply Forall_app. split.
    + destruct (nonempty items); [apply Forall_app; split; [exact H|repeat constructor] | exact H].
    + apply Forall_forall. intros x Hx. apply in_map_iff in Hx as [p [<- _]]. exact I.
  - destruct (strip l) as [|c tl]; [apply IH, H|].
    destruct (is_marker c); apply IH.
    + apply Forall_app. split; [exact H|].
      apply Forall_forall. intros x Hx. apply in_map_iff in Hx as [p [<- _]]. exact I.
    + destruct (nonempty items); [apply Forall_app; split; [exact H|repeat constructor] | exact H].
Qed.

Lemma formatting_no_table : forall story content,
  Forall not_table story -> Forall not_table (add_content_with_formatting story content).
Proof.
  intros story content H. unfold add_content_with_formatting.
  destruct (search bullet_pattern content); [apply format_lines_no_table, H|].
  revert story H. induction (split_str [chr_nl; chr_nl] content) as [|p ps IH]; intros st H; simpl.
  - exact H.
  - apply IH. destruct (nonempty (strip p)); [|exact H].
    apply Forall_app. split; [exact H | repeat constructor].
Qed.

Lemma add_section_no_table : forall sections story num,
  Forall not_table story -> Forall not_table (add_section sections story num).
Proof.
  intros sections story num H. unfold add_section.
  apply Forall_app. split; [|repeat constructor].
  assert (H1 : Forall not_table
    (story ++ [Paragraph (num ++ ". " ++ section_title_of num
       match lookup num sections with Some v => v | None => [] end) HeadingStyle])).
  { apply Forall_app. split; [exact H | repeat constructor]. }
  destruct (split_once chr_nl _) as [|a [|rest [|]]]; try exact H1.
  destruct (nonempty (strip rest)); [apply formatting_no_table|]; exact H1.
Qed.

Lemma parse_no_table : forall story content,
  Forall not_table story -> Forall not_table (parse_and_add_content story content).
Proof.
  intros story content. unfold parse_and_add_content.
  generalize (sorted_by_int (map fst (collect_sections content))) as ks.
  intro ks. revert story. induction ks as [|k ks IH]; intros st H; simpl; [exact H|].
  apply IH, add_section_no_table, H.
Qed.

Lemma toc_no_table : forall story,
  Forall not_table story -> Forall not_table (create_table_of_contents story).
Proof.
  intros story H. unfold create_table_of_contents.
  assert (H0 : Forall not_table
    (story ++ [Paragraph "Table of Contents" SubtitleStyle; Spacer 10 144])).
  { apply Forall_app. split; [exact H | repeat constructor]. }
  revert H0. generalize (story ++ [Paragraph "Table of Contents" SubtitleStyle; Spacer 10 144]).
  induction (combine (seq 1 16) toc_entries) as [|ie ies IH]; intros st H0; simpl; [exact H0|].
  apply IH. apply Forall_app. split; [exact H0 | repeat constructor].
Qed.

(** ** Lists of characters *)

Lemma prefixb_app : forall w t, prefixb w (w ++ t) = true.
Proof. induction w as [|a w IH]; intro t; simpl; [reflexivity|]. rewrite Ascii.eqb_refl. apply IH. Qed.

Lemma prefixb_inv : forall w s, prefixb w s = true -> exists t, s = w ++ t.
Proof.
  induction w as [|a w IH]; intros s H; [exists s; reflexivity|].
  destruct s as [|b s]; [discriminate|]. simpl in H.
  apply andb_prop in H as [H1 H2]. apply Ascii.eqb_eq in H1. subst b.
  destruct (IH s H2) as [t ->]. exists t. reflexivity.
Qed.

Lemma skipn_len_app : forall (w t : str), skipn (length w) (w ++ t) = t.
Proof. induction w as [|a w IH]; intro t; simpl; [reflexivity | apply IH]. Qed.

Lemma firstn_len_app : forall (w t : str), firstn (length w) (w ++ t) = w.
Proof. induction w as [|a w IH]; intro t; simpl; [reflexivity | rewrite IH; reflexivity]. Qed.

Lemma run_app_stop : forall f u x v,
  forallb f u = true -> f x = false -> run f (u ++ x :: v) = length u.
Proof.
  intros f u x v. induction u as [|a u IH]; intros Hu Hx; simpl in *.
  - rewrite Hx. reflexivity.
  - apply andb_prop in Hu as [Ha Hu]. rewrite Ha, IH; auto.
Qed.

Lemma run_all : forall f u, forallb f u = true -> run f u = length u.
Proof.
  intros f u. induction u as [|a u IH]; intro H; simpl in *; [reflexivity|].
  apply andb_prop in H as [Ha Hu]. rewrite Ha, IH; auto.
Qed.

Lemma run_le : forall f t, run f t <= length t.
Proof. intros f t. induction t as [|a t IH]; simpl; [lia|]. destruct (f a); simpl; lia. Qed.

Lemma run_skipn_head : forall f t c, c < run f t ->
  exists x r, skipn c t = x :: r /\ f x = true.
Proof.
  intros f t. induction t as [|a t IH]; intros c H; simpl in H; [lia|].
  destruct (f a) eqn:Ea; [|lia].
  destruct c as [|c]; simpl.
  - exists a, t. auto.
  - apply IH. lia.
Qed.

Lemma skipn_run_lstrip : forall t, skipn (run is_ws t) t = lstrip t.
Proof.
  induction t as [|a t IH]; simpl; [reflexivity|].
  destruct (is_ws a); simpl; [apply IH | reflexivity].
Qed.

Lemma ends_nl_cons : forall c t, ends_nl (c :: t) = true -> ends_nl t = true.
Proof.
  intros c t H. unfold ends_nl in *. simpl in H.
  destruct (rev t) as [|x r]; [reflexivity|]. exact H.
Qed.

Lemma ends_nl_split : forall t, t <> [] -> ends_nl t = true -> exists u, t = u ++ [chr_nl].
Proof.
  intros t Hne H. unfold ends_nl in H.
  destruct (rev t) as [|x r] eqn:E.
  - destruct t; [contradiction|]. simpl in E. destruct (rev t); discriminate.
  - apply Ascii.eqb_eq in H. subst x. exists (rev r).
    rewrite <- (rev_involutive t), E. reflexivity.
Qed.

Lemma has_no_nl_prefix : forall w a v, has_no_nl w = true ->
  prefixb w (a ++ chr_nl :: v) = true -> exists a2, a = w ++ a2.
Proof.
  induction w as [|x w IH]; intros a v Hw H; [exists a; reflexivity|].
  simpl in Hw. apply andb_prop in Hw as [Hx Hw].
  destruct a as [|y a].
  - simpl in H. apply andb_prop in H as [H1 _]. apply Ascii.eqb_eq in H1. subst x.
    discriminate.
  - simpl in H. apply andb_prop in H as [H1 H2]. apply Ascii.eqb_eq in H1. subst y.
    destruct (IH a v Hw H2) as [a2 ->]. exists a2. reflexivity.
Qed.

(** A literal with no line break, found at the start of [u ++ v] where
    [u] ends with a line break, lies inside [u]. *)
Lemma starts_mark_straddle : forall w u v, has_no_nl w = true -> u <> [] ->
  ends_nl u = true -> starts_mark w (u ++ v) = true -> starts_mark w u = true.
Proof.
  intros w u v Hw Hne He H. destruct (ends_nl_split u Hne He) as [a ->].
  unfold starts_mark in *. apply andb_prop in H as [H1 H2].
  rewrite <- app_assoc in H1. simpl in H1.
  destruct (has_no_nl_prefix w a v Hw H1) as [a2 ->].
  rewrite <- !app_assoc, !skipn_len_app in *. rewrite prefixb_app. simpl.
  destruct a2 as [|y a2]; simpl in *; [exact H2|].
  destruct (is_ws y); [reflexivity | exact H2].
Qed.

Lemma prefixb_straddle : forall w u v, has_no_nl w = true -> u <> [] ->
  ends_nl u = true -> prefixb w (u ++ v) = true -> prefixb w u = true.
Proof.
  intros w u v Hw Hne He H. destruct (ends_nl_split u Hne He) as [a ->].
  rewrite <- app_assoc in H. simpl in H.
  destruct (has_no_nl_prefix w a v Hw H) as [a2 ->].
  rewrite <- app_assoc. apply prefixb_app.
Qed.

Lemma lstrip_app : forall l r,
  lstrip (l ++ r) = match lstrip l with [] => lstrip r | x => x ++ r end.
Proof.
  induction l as [|a l IH]; intro r; [reflexivity|].
  cbn [app lstrip]. destruct (is_ws a); [apply IH | reflexivity].
Qed.

(** ** Repetition counts *)

Lemma try_counts_app : forall l1 l2 g,
  try_counts (l1 ++ l2) g =
  match try_counts l1 g with Some x => Some x | None => try_counts l2 g end.
Proof.
  induction l1 as [|c l1 IH]; intros l2 g; simpl; [reflexivity|].
  destruct (g c); [reflexivity | apply IH].
Qed.

Lemma try_counts_none : forall l g, (forall c, In c l -> g c = None) -> try_counts l g = None.
Proof.
  induction l as [|c l IH]; intros g H; simpl; [reflexivity|].
  rewrite (H c (or_introl eq_refl)). apply IH. intros c' Hc. apply H. right. exact Hc.
Qed.

Lemma try_counts_ext : forall l g g', (forall c, In c l -> g c = g' c) ->
  try_counts l g = try_counts l g'.
Proof.
  induction l as [|c l IH]; intros g g' H; simpl; [reflexivity|].
  rewrite (H c (or_introl eq_refl)). destruct (g' c); [reflexivity|].
  apply IH. intros c' Hc. apply H. right. exact Hc.
Qed.


Lemma try_counts_seq_first : forall n a g c x, a <= c < a + n ->
  (forall c', a <= c' < c -> g c' = None) -> g c = Some x -> try_counts (seq a n) g = Some x.
Proof.
  induction n as [|n IH]; intros a g c x Hc Hb Hg; simpl; [lia|].
  destruct (Nat.eq_dec c a) as [->|Hne]; [rewrite Hg; reflexivity|].
  rewrite (Hb a); [|lia]. apply (IH (S a) g c x); [lia | | exact Hg].
  intros c' Hc'. apply Hb. lia.
Qed.

Lemma counts_greedy : forall lo n, lo <= n ->
  counts lo n true = n :: rev (seq lo (n - lo)).
Proof.
  intros lo n H. unfold counts.
  replace (S n - lo) with (n - lo + 1) by lia.
  rewrite seq_app. rewrite rev_app_distr. simpl. f_equal. f_equal. lia.
Qed.

(** A greedy repetition whose continuation can only succeed after the
    whole run is taken. *)
Lemma try_counts_greedy_max : forall lo n g, lo <= n ->
  (forall c, lo <= c < n -> g c = None) ->
  try_counts (counts lo n true) g = g n.
Proof.
  intros lo n g Hlo H. rewrite counts_greedy by exact Hlo. simpl.
  destruct (g n); [reflexivity|].
  apply try_counts_none. intros c Hc. apply in_rev, in_seq in Hc. apply H. lia.
Qed.

(** ** The matcher *)

Lemma prev_after_cons : forall p c t, prev_after p (c :: t) = prev_after (Some c) t.
Proof.
  intros p c t. unfold prev_after. simpl.
  destruct (rev t) as [|x r]; reflexivity.
Qed.

Lemma prev_after_app : forall p u v, prev_after p (u ++ v) = prev_after (prev_after p u) v.
Proof.
  intros p u v. unfold prev_after. rewrite rev_app_distr.
  destruct (rev v) as [|x r]; reflexivity.
Qed.

Lemma mt_seq : forall r1 r2 st k, mt (RSeq r1 r2) st k = mt r1 st (fun s => mt r2 s k).
Proof. reflexivity. Qed.

Lemma mt_cls : forall f st k, mt (RCls f) st k =
  match ms_rest st with c :: _ => if f c then k (advance st 1) else None | [] => None end.
Proof. reflexivity. Qed.

Lemma mt_rep : forall f lo g st k, mt (RRep f lo g) st k =
  try_counts (counts lo (run f (ms_rest st)) g) (fun c => k (advance st c)).
Proof. reflexivity. Qed.

Lemma mt_bol : forall st k, mt RBol st k = if bol_ok (ms_prev st) then k st else None.
Proof. reflexivity. Qed.

(** Scanning past a stretch [u] at none of whose positions the pattern
    matches. *)
Lemma search_from_app : forall r u v p acc,
  (forall k, k < length u ->
     mt r (MS (prev_after p (firstn k u)) (skipn k u ++ v) []) Some = None) ->
  search_from r p acc (u ++ v) = search_from r (prev_after p u) (rev u ++ acc) v.
Proof.
  intros r u. induction u as [|c u IH]; intros v p acc H; [reflexivity|].
  simpl. unfold match_at at 1.
  pose proof (H 0 ltac:(simpl; lia)) as H0.
  unfold prev_after in H0. simpl in H0. rewrite H0.
  rewrite IH.
  - rewrite prev_after_cons, <- app_assoc. reflexivity.
  - intros k Hk. rewrite <- (prev_after_cons p). apply (H (S k)). simpl. lia.
Qed.

Lemma search_from_inv : forall r s p acc m, search_from r p acc s = Some m ->
  exists p' t st, mt r (MS p' t []) Some = Some st /\
    rm_after m = ms_rest st /\ rm_caps m = ms_caps st.
Proof.
  intros r s. induction s as [|c s IH]; intros p acc m H; simpl in H;
    unfold match_at in H.
  - destruct (mt r (MS p [] []) Some) as [st|] eqn:E; [|discriminate].
    injection H as <-. exists p, [], st. auto.
  - destruct (mt r (MS p (c :: s) []) Some) as [st|] eqn:E.
    + injection H as <-. exists p, (c :: s), st. auto.
    + exact (IH _ _ _ H).
Qed.

Lemma mt_lit_inv : forall w st k x, mt (RLit w) st k = Some x ->
  k (advance st (length w)) = Some x.
Proof. intros w st k x H. simpl in H. destruct (prefixb w (ms_rest st)); congruence. Qed.

Lemma mt_rep_inv : forall f lo g st k x, mt (RRep f lo g) st k = Some x ->
  exists c, k (advance st c) = Some x.
Proof.
  intros f lo g st k x H. simpl in H.
  revert H. generalize (counts lo (run f (ms_rest st)) g) as l.
  induction l as [|c l IH]; intro H; simpl in H; [discriminate|].
  destruct (k (advance st c)) eqn:E; [exists c; congruence | exact (IH H)].
Qed.

Lemma mt_seq_lit_inv : forall w r st k x, mt (RSeq (RLit w) r) st k = Some x ->
  mt r (advance st (length w)) k = Some x.
Proof. intros w r st k x H. cbn [mt] in H. destruct (prefixb w (ms_rest st)); congruence. Qed.


Lemma any_char_run : forall t, run any_char t = length t.
Proof. induction t as [|a t IH]; simpl; [reflexivity | rewrite IH; reflexivity]. Qed.

Lemma advance_app : forall p w y c,
  advance (MS p (w ++ y) c) (length w) = MS (prev_after p w) y c.
Proof. intros p w y c. unfold advance. cbn [ms_rest ms_prev ms_caps].
  rewrite firstn_len_app, skipn_len_app. reflexivity. Qed.

Lemma try_counts_greedy_first : forall lo n g x, lo <= n -> g n = Some x ->
  try_counts (counts lo n true) g = Some x.
Proof. intros lo n g x Hlo H. rewrite counts_greedy by exact Hlo. simpl. rewrite H. reflexivity. Qed.

Lemma occurs_by_skipn : forall q u k, occurs_by q u = false -> k < length u ->
  q (skipn k u) = false.
Proof.
  intros q u. induction u as [|a u IH]; intros k H Hk; simpl in Hk; [lia|].
  simpl in H. apply orb_false_iff in H as [H1 H2].
  destruct k as [|k]; [exact H1|]. simpl. apply IH; [exact H2 | lia].
Qed.

Lemma ends_nl_skipn : forall u k, ends_nl u = true -> ends_nl (skipn k u) = true.
Proof.
  induction u as [|a u IH]; intros k H; destruct k as [|k]; simpl; auto.
  apply IH. exact (ends_nl_cons a u H).
Qed.

(** No match starts inside a stretch [u] ending with a line break, when
    every match starts with something that [q] detects, [q] cannot see
    past a line break, and [q] holds at no position of [u]. *)
Lemma search_skip_lines : forall r (q : str -> bool) u v p acc,
  (forall p' t, mt r (MS p' t []) Some <> None -> q t = true) ->
  (forall a b, a <> [] -> ends_nl a = true -> q (a ++ b) = true -> q a = true) ->
  occurs_by q u = false -> ends_nl u = true ->
  search_from r p acc (u ++ v) = search_from r (prev_after p u) (rev u ++ acc) v.
Proof.
  intros r q u v p acc Hr Hq Hocc Hnl. apply search_from_app.
  intros k Hk. destruct (mt r _ Some) eqn:E; [|reflexivity]. exfalso.
  assert (Hne : skipn k u <> []).
  { intro H0. apply (f_equal (@length ascii)) in H0. rewrite length_skipn in H0. simpl in H0. lia. }
  assert (Hqt : q (skipn k u ++ v) = true) by (eapply Hr; rewrite E; discriminate).
  apply Hq in Hqt; [| exact Hne | apply ends_nl_skipn; exact Hnl].
  rewrite (occurs_by_skipn q u k Hocc Hk) in Hqt. discriminate.
Qed.

Lemma search_from_here : forall r p acc s st, mt r (MS p s []) Some = Some st ->
  search_from r p acc s =
  Some (RM (rev acc) (firstn (length s - length (ms_rest st)) s) (ms_rest st) (ms_caps st)).
Proof. intros r p acc s st H. destruct s; cbn [search_from]; unfold match_at; rewrite H; reflexivity. Qed.

Lemma search_from_none : forall r (q : str -> bool) s p acc,
  (forall p' t, mt r (MS p' t []) Some <> None -> q t = true) ->
  (forall k, k <= length s -> q (skipn k s) = false) ->
  search_from r p acc s = None.
Proof.
  intros r q s. induction s as [|a s IH]; intros p acc Hr Hs; simpl; unfold match_at.
  - destruct (mt r (MS p [] []) Some) eqn:E; [|reflexivity].
    exfalso. assert (q [] = true) by (eapply Hr; rewrite E; discriminate).
    specialize (Hs 0 ltac:(simpl; lia)). simpl in Hs. congruence.
  - destruct (mt r (MS p (a :: s) []) Some) eqn:E.
    + exfalso. assert (q (a :: s) = true) by (eapply Hr; rewrite E; discriminate).
      specialize (Hs 0 ltac:(simpl; lia)). simpl in Hs. congruence.
    + apply IH; [exact Hr|]. intros k Hk. apply (Hs (S k)). simpl. lia.
Qed.

(** The lazy capture [(.*?)] (DOTALL) followed by a lookahead tries the
    capture lengths [0, 1, 2, ...] in turn. *)
Lemma mt_lazy_capture : forall n L st k,
  mt (RSeq (RGroup n (RRep any_char 0 false)) (RAhead L)) st k =
  try_counts (seq 0 (S (length (ms_rest st))))
    (fun c =>
       let st' := MS (prev_after (ms_prev st) (firstn c (ms_rest st)))
                     (skipn c (ms_rest st))
                     ((n, firstn c (ms_rest st)) :: ms_caps st) in
       match mt L st' Some with Some _ => k st' | None => None end).
Proof.
  intros n L st k. cbn [mt]. unfold counts. rewrite any_char_run.
  replace (S (length (ms_rest st)) - 0) with (S (length (ms_rest st))) by lia.
  apply try_counts_ext. intros c Hc. apply in_seq in Hc. unfold advance. cbn [ms_rest ms_prev ms_caps].
  rewrite length_skipn.
  replace (length (ms_rest st) - (length (ms_rest st) - c)) with c by lia.
  reflexivity.
Qed.

Lemma try_counts_greedy_some : forall n f,
  try_counts (counts 1 n true) (fun c => Some (f c)) =
  match n with 0 => None | _ => Some (f n) end.
Proof. intros [|n] f; [reflexivity|]. rewrite counts_greedy by lia. reflexivity. Qed.

Lemma mt_next_boundary : forall j st,
  match mt (next_boundary j) st Some with Some _ => true | None => false end =
  at_boundary j (ms_rest st).
Proof.
  intros j st. unfold next_boundary, at_boundary, starts_mark, ws_plus. cbn [mt].
  destruct (prefixb (digits j ++ ".") (ms_rest st)); cbn [andb orb].
  - rewrite try_counts_greedy_some. unfold advance. cbn [ms_rest].
    destruct (run is_ws _); simpl; [destruct (dollar_ok (ms_rest st)) |]; reflexivity.
  - destruct (dollar_ok (ms_rest st)); reflexivity.
Qed.

Lemma dollar_ok_len : forall t, dollar_ok t = true -> length t <= 1.
Proof. intros [|a [|b t]] H; simpl in *; auto; discriminate. Qed.


(** ** The project-name pattern *)

Lemma mt_seq_lit : forall w r st k, prefixb w (ms_rest st) = true ->
  mt (RSeq (RLit w) r) st k = mt r (advance st (length w)) k.
Proof. intros w r st k H. cbn [mt]. rewrite H. reflexivity. Qed.

Lemma mt_seq_alt : forall r1 r2 r3 st k,
  mt (RSeq (RAlt r1 r2) r3) st k =
  match mt r1 st (fun s => mt r3 s k) with
  | Some x => Some x
  | None => mt r2 st (fun s => mt r3 s k)
  end.
Proof. reflexivity. Qed.

Lemma mt_lit_true : forall w st k, prefixb w (ms_rest st) = true ->
  mt (RLit w) st k = k (advance st (length w)).
Proof. intros w st k H. cbn [mt]. rewrite H. reflexivity. Qed.

Lemma mt_lit_false : forall w st k, prefixb w (ms_rest st) = false ->
  mt (RLit w) st k = None.
Proof. intros w st k H. cbn [mt]. rewrite H. reflexivity. Qed.

Lemma advance_0 : forall st, advance st 0 = st.
Proof. intros [p r c]. reflexivity. Qed.

Lemma project_name_starts : forall p t,
  mt project_name_pattern (MS p t []) Some <> None ->
  prefixb "Product Requirements Document" t = true.
Proof.
  intros p t H. unfold project_name_pattern in H. cbn [mt ms_rest] in H.
  destruct (prefixb _ t); [reflexivity | contradiction].
Qed.

Lemma run_not_nl_line : forall t rest, has_no_nl t = true ->
  (rest = [] \/ exists r, rest = chr_nl :: r) -> run not_nl (t ++ rest) = length t.
Proof.
  intros t rest Ht [-> | [r ->]].
  - rewrite app_nil_r. apply run_all. exact Ht.
  - apply run_app_stop; [exact Ht | reflexivity].
Qed.

(** [\s*([^\n]+)] on whitespace followed by a line of text. *)
Lemma mt_name_tail : forall p sp c t' rest,
  forallb is_ws sp = true -> is_ws c = false -> has_no_nl (c :: t') = true ->
  (rest = [] \/ exists r, rest = chr_nl :: r) ->
  mt (RSeq (RRep is_ws 0 true) (RGroup 1 (RRep not_nl 1 true)))
     (MS p (sp ++ (c :: t') ++ rest) []) Some =
  Some (MS (prev_after (prev_after p sp) (c :: t')) rest [(1, c :: t')]).
Proof.
  intros p sp c t' rest Hsp Hc Ht Hrest.
  assert (Hrun : run is_ws (sp ++ (c :: t') ++ rest) = length sp)
    by (apply run_app_stop; assumption).
  cbn [mt ms_rest]. rewrite Hrun.
  apply try_counts_greedy_first; [lia|].
  rewrite advance_app. cbn [ms_rest ms_prev ms_caps].
  rewrite (run_not_nl_line _ _ Ht Hrest).
  apply try_counts_greedy_first; [simpl; lia|].
  rewrite advance_app. cbn [ms_rest ms_prev ms_caps].
  rewrite length_app, Nat.add_sub. rewrite firstn_len_app. reflexivity.
Qed.

Lemma mt_project_name : forall p colon sp c t' rest,
  (colon = [] \/ colon = ":") -> forallb is_ws sp = true -> is_ws c = false ->
  c <> ":"%char -> has_no_nl (c :: t') = true ->
  (rest = [] \/ exists r, rest = chr_nl :: r) ->
  exists st,
    mt project_name_pattern
       (MS p ("Product Requirements Document" ++ colon ++ sp ++ (c :: t') ++ rest) []) Some =
      Some st /\ ms_caps st = [(1, c :: t')].
Proof.
  intros p colon sp c t' rest Hcolon Hsp Hc Hcc Ht Hrest.
  unfold project_name_pattern. rewrite mt_seq_lit by apply prefixb_app.
  rewrite advance_app. rewrite mt_seq_alt.
  destruct Hcolon as [-> | ->].
  - assert (Hno : prefixb ":" (sp ++ (c :: t') ++ rest) = false).
    { destruct sp as [|a sp]; cbn [prefixb app list_ascii_of_string].
      - destruct (Ascii.eqb_spec ":" c); [congruence | reflexivity].
      - cbn [forallb] in Hsp. apply andb_prop in Hsp as [Ha _].
        destruct (Ascii.eqb_spec ":" a); [subst a; discriminate | reflexivity]. }
    rewrite mt_lit_false by exact Hno.
    rewrite mt_lit_true by reflexivity. cbv beta.
    change (length (list_ascii_of_string "")) with 0. rewrite advance_0.
    rewrite (mt_name_tail _ _ _ _ _ Hsp Hc Ht Hrest).
    eexists. split; reflexivity.
  - rewrite mt_lit_true by apply prefixb_app. cbv beta.
    rewrite advance_app.
    rewrite (mt_name_tail _ _ _ _ _ Hsp Hc Ht Hrest).
    eexists. split; reflexivity.
Qed.

Lemma project_name_default : forall content,
  occurs_by (prefixb "Product Requirements Document") content = false ->
  search project_name_pattern content = None.
Proof.
  intros content H. unfold search.
  apply (search_from_none _ (prefixb "Product Requirements Document")).
  - exact project_name_starts.
  - intros k Hk. destruct (Nat.eq_dec k (length content)) as [->|Hne].
    + rewrite skipn_all. reflexivity.
    + apply occurs_by_skipn; [exact H | lia].
Qed.

(** ** Headers of sections *)

Lemma mt_lazy_group : forall n f L st k,
  mt (RSeq (RGroup n (RRep f 0 false)) (RAhead L)) st k =
  try_counts (seq 0 (S (run f (ms_rest st))))
    (fun c =>
       let st' := MS (prev_after (ms_prev st) (firstn c (ms_rest st)))
                     (skipn c (ms_rest st))
                     ((n, firstn c (ms_rest st)) :: ms_caps st) in
       match mt L st' Some with Some _ => k st' | None => None end).
Proof.
  intros n f L st k. cbn [mt]. unfold counts.
  replace (S (run f (ms_rest st)) - 0) with (S (run f (ms_rest st))) by lia.
  apply try_counts_ext. intros c Hc. apply in_seq in Hc.
  pose proof (run_le f (ms_rest st)).
  unfold advance. cbn [ms_rest ms_prev ms_caps].
  rewrite length_skipn.
  replace (length (ms_rest st) - (length (ms_rest st) - c)) with c by lia.
  reflexivity.
Qed.

Lemma lookahead_result : forall L st (k : mstate -> option mstate) b,
  match mt L st Some with Some _ => true | None => false end = b ->
  match mt L st Some with Some _ => k st | None => None end = if b then k st else None.
Proof. intros L st k b H. destruct (mt L st Some); subst b; reflexivity. Qed.

Lemma mt_line_end : forall st,
  match mt (RAlt (RLit [chr_nl]) RDollar) st Some with Some _ => true | None => false end =
  prefixb [chr_nl] (ms_rest st) || dollar_ok (ms_rest st).
Proof.
  intro st. cbn [mt]. destruct (prefixb [chr_nl] (ms_rest st)); [reflexivity|].
  destruct (dollar_ok (ms_rest st)); reflexivity.
Qed.

Lemma title_ok_inv : forall T, title_ok T = true ->
  exists t0 ts, T = t0 :: ts /\ is_ws t0 = false /\ has_no_nl T = true.
Proof.
  intros [|t0 ts] H; [discriminate|]. apply andb_prop in H as [H1 H2].
  exists t0, ts. split; [reflexivity|]. split; [|exact H2].
  destruct (is_ws t0); [discriminate | reflexivity].
Qed.

Lemma run_ws_space : forall T Y, title_ok T = true -> run is_ws (" "%char :: T ++ Y) = 1.
Proof.
  intros T Y H. destruct (title_ok_inv T H) as [t0 [ts [-> [H0 _]]]].
  cbn [run app]. rewrite H0. reflexivity.
Qed.

(** The strict pattern of section [i] at its header, when the capture
    ends at the first boundary, after [c0] characters. *)
Lemma mt_strict_header : forall i T Y c0 p,
  title_ok T = true -> c0 <= length Y ->
  (forall c, c < c0 -> at_boundary (S i) (skipn c Y) = false) ->
  at_boundary (S i) (skipn c0 Y) = true ->
  exists st,
    mt (strict_pattern i T) (MS p ((digits i ++ ".") ++ " "%char :: T ++ Y) []) Some = Some st /\
    ms_caps st = [(1, firstn c0 Y)].
Proof.
  intros i T Y c0 p HT Hc0 Hbefore Hat. unfold strict_pattern.
  rewrite mt_seq_lit by apply prefixb_app. rewrite advance_app.
  rewrite mt_seq. unfold ws_plus. rewrite mt_rep. cbn [ms_rest].
  rewrite run_ws_space by exact HT.
  change (" "%char :: T ++ Y) with ((" " : str) ++ T ++ Y).
  rewrite <- advance_app.
  set (q := prev_after (prev_after p (digits i ++ ".")) " ").
  assert (E : exists st,
    mt (RSeq (RLit T) (RSeq (RGroup 1 (RRep any_char 0 false)) (RAhead (next_boundary (S i)))))
       (MS q (T ++ Y) []) Some = Some st /\ ms_caps st = [(1, firstn c0 Y)]).
  { rewrite mt_seq_lit by apply prefixb_app. rewrite advance_app.
    rewrite mt_lazy_capture. cbn [ms_rest ms_prev ms_caps].
    eexists. split.
    - apply (try_counts_seq_first _ 0 _ c0); [lia | |].
      + intros c' Hc'. cbv zeta. rewrite (lookahead_result _ _ Some false); [reflexivity|].
        rewrite mt_next_boundary. cbn [ms_rest]. apply Hbefore. lia.
      + cbv zeta. rewrite (lookahead_result _ _ Some true); [reflexivity|].
        rewrite mt_next_boundary. cbn [ms_rest]. exact Hat.
    - reflexivity. }
  destruct E as [st [E1 E2]]. exists st. split; [|exact E2].
  apply try_counts_greedy_first; [lia|].
  rewrite advance_app. exact E1.
Qed.

(** The title pattern on a header line. *)
Lemma mt_title_line : forall num T G p, title_ok T = true ->
  (G = [] \/ exists g, G = chr_nl :: g) ->
  exists st,
    mt (title_pattern num) (MS p ((num ++ ".") ++ " "%char :: T ++ G) []) Some = Some st /\
    ms_caps st = [(1, T)].
Proof.
  intros num T G p HT HG. unfold title_pattern.
  rewrite mt_seq_lit by apply prefixb_app. rewrite advance_app.
  rewrite mt_seq. unfold ws_plus. rewrite mt_rep. cbn [ms_rest].
  rewrite run_ws_space by exact HT.
  change (" "%char :: T ++ G) with ((" " : str) ++ T ++ G).
  destruct (title_ok_inv T HT) as [t0 [ts [ET [H0 Hnl]]]].
  assert (Hrun : run not_nl (T ++ G) = length T).
  { apply run_not_nl_line; [exact Hnl|]. destruct HG as [-> | [g ->]]; [left | right; exists g]; reflexivity. }
  eexists. split.
  2: shelve.
  apply try_counts_greedy_first; [lia|].
  rewrite advance_app. rewrite mt_lazy_group. cbn [ms_rest ms_prev ms_caps].
  rewrite Hrun.
  apply (try_counts_seq_first _ 0 _ (length T)); [lia | |].
  - intros c' Hc'. cbv zeta. rewrite (lookahead_result _ _ Some false); [reflexivity|].
    rewrite mt_line_end. cbn [ms_rest].
    assert (Hs : skipn c' (T ++ G) = skipn c' T ++ G).
    { rewrite skipn_app. replace (c' - length T) with 0 by lia. reflexivity. }
    rewrite Hs.
    destruct (skipn c' T) as [|x r] eqn:Ex.
    + apply (f_equal (@length ascii)) in Ex. rewrite length_skipn in Ex. simpl in Ex. lia.
    + assert (Hx : not_nl x = true).
      { unfold has_no_nl in Hnl. rewrite forallb_forall in Hnl. apply Hnl.
        rewrite <- (firstn_skipn c' T). apply in_or_app. right.
        rewrite Ex. left. reflexivity. }
      unfold not_nl in Hx. cbn [app prefixb]. rewrite andb_true_r.
      destruct (Ascii.eqb chr_nl x) eqn:E1.
      * apply Ascii.eqb_eq in E1. subst x. rewrite Ascii.eqb_refl in Hx. discriminate.
      * cbn [orb]. destruct r as [|y r].
        -- destruct HG as [-> | [g ->]]; cbn [app dollar_ok];
             [rewrite Ascii.eqb_sym, E1; reflexivity | reflexivity].
        -- reflexivity.
  - cbv zeta. rewrite (lookahead_result _ _ Some true).
    + reflexivity.
    + rewrite mt_line_end. cbn [ms_rest]. rewrite skipn_len_app.
      destruct HG as [-> | [g ->]]; reflexivity.
  Unshelve. cbn [ms_caps]. rewrite firstn_len_app. reflexivity.
Qed.

Lemma split_once_line : forall u g, has_no_nl u = true ->
  split_once chr_nl (u ++ chr_nl :: g) = [u; g].
Proof.
  induction u as [|a u IH]; intros g H; cbn [split_once app].
  - rewrite Ascii.eqb_refl. reflexivity.
  - cbn [has_no_nl forallb] in H. apply andb_prop in H as [Ha Hu]. unfold not_nl in Ha.
    destruct (Ascii.eqb a chr_nl); [discriminate|]. rewrite IH by exact Hu. reflexivity.
Qed.

Lemma split_once_noline : forall u, has_no_nl u = true -> split_once chr_nl u = [u].
Proof.
  induction u as [|a u IH]; intro H; cbn [split_once]; [reflexivity|].
  cbn [has_no_nl forallb] in H. apply andb_prop in H as [Ha Hu]. unfold not_nl in Ha.
  destruct (Ascii.eqb a chr_nl); [discriminate|]. rewrite IH by exact Hu. reflexivity.
Qed.

Lemma strip_app_nl : forall t, strip (t ++ [chr_nl]) = strip t.
Proof.
  intro t. unfold strip. rewrite lstrip_app.
  destruct (lstrip t) as [|x r] eqn:E; [reflexivity|].
  unfold rstrip. rewrite rev_app_distr. reflexivity.
Qed.

(** ** Well-formed documents *)

Lemma header_facts_all : forall i, 1 <= i <= 16 -> header_facts i = true.
Proof.
  intros i Hi.
  do 17 (destruct i as [|i]; [try lia; vm_compute; reflexivity|]). lia.
Qed.

Lemma header_facts_parts : forall i, header_facts i = true ->
  title_ok (get_default_section_title (digits i)) = true /\
  has_no_nl (digits i ++ ". ") = true /\
  has_no_nl (digits i ++ ".") = true /\
  has_no_nl (digits (S i) ++ ".") = true /\
  match digits (S i) with d :: _ => negb (Ascii.eqb d chr_nl) | [] => false end = true /\
  (forall j, 1 <= j < i -> occurs_by (starts_mark (digits i ++ ".")) (header j) = false).
Proof.
  intros i H. unfold header_facts in H.
  repeat match type of H with (_ && _) = true => apply andb_prop in H as [H ?] end.
  repeat split; try assumption.
  intros j Hj. match goal with Hf : forallb _ (seq 1 (i - 1)) = true |- _ =>
    rewrite forallb_forall in Hf; specialize (Hf j ltac:(apply in_seq; lia)) end.
  apply negb_true_iff. assumption.
Qed.

Lemma no_markers_spec : forall t n, no_markers t = true -> 1 <= n <= 17 ->
  occurs_by (starts_mark (digits n ++ ".")) t = false.
Proof.
  intros t n H Hn. unfold no_markers in H. rewrite forallb_forall in H.
  apply negb_true_iff. apply H. apply in_seq. lia.
Qed.

Lemma ends_nl_app : forall u v, ends_nl u = true -> ends_nl v = true -> ends_nl (u ++ v) = true.
Proof.
  intros u v Hu Hv. unfold ends_nl in *. rewrite rev_app_distr.
  destruct (rev v); [exact Hu | exact Hv].
Qed.

Lemma ends_nl_header : forall j, ends_nl (header j) = true.
Proof.
  intro j. unfold header, ends_nl. rewrite !app_assoc, rev_app_distr. reflexivity.
Qed.

Lemma occurs_by_app : forall (q : str -> bool) u v,
  (forall a b, a <> [] -> ends_nl a = true -> q (a ++ b) = true -> q a = true) ->
  occurs_by q u = false -> occurs_by q v = false -> ends_nl u = true ->
  occurs_by q (u ++ v) = false.
Proof.
  intros q u v Hq. induction u as [|a u IH]; intros Hu Hv Hnl; [exact Hv|].
  cbn [occurs_by app] in *. apply orb_false_iff in Hu as [H1 H2].
  apply orb_false_iff. split.
  - destruct (q (a :: u ++ v)) eqn:E; [|reflexivity].
    change (a :: u ++ v) with ((a :: u) ++ v) in E.
    apply Hq in E; [congruence | discriminate | exact Hnl].
  - apply IH; [exact H2 | exact Hv | exact (ends_nl_cons a u Hnl)].
Qed.

Lemma header_app : forall i Z,
  header i ++ Z =
  (digits i ++ ".") ++ " "%char :: get_default_section_title (digits i) ++ chr_nl :: Z.
Proof. intros i Z. unfold header. rewrite <- !app_assoc. reflexivity. Qed.

Lemma starts_mark_header : forall i Z, 1 <= i <= 16 ->
  starts_mark (digits i ++ ".") (header i ++ Z) = true.
Proof.
  intros i Z Hi. rewrite header_app. unfold starts_mark.
  rewrite prefixb_app, skipn_len_app. reflexivity.
Qed.

Lemma starts_mark_nl : forall i t,
  match digits (S i) with d :: _ => negb (Ascii.eqb d chr_nl) | [] => false end = true ->
  starts_mark (digits (S i) ++ ".") (chr_nl :: t) = false.
Proof.
  intros i t H. unfold starts_mark. destruct (digits (S i)) as [|d ds]; [discriminate|].
  cbn [app prefixb]. apply negb_true_iff in H. rewrite H. reflexivity.
Qed.

Lemma strict_starts : forall i T p t,
  mt (strict_pattern i T) (MS p t []) Some <> None -> starts_mark (digits i ++ ".") t = true.
Proof.
  intros i T p t H. unfold strict_pattern in H. unfold starts_mark.
  destruct (prefixb (digits i ++ ".") t) eqn:Ep.
  - rewrite mt_seq_lit in H by exact Ep. rewrite mt_seq in H. unfold ws_plus in H.
    rewrite mt_rep in H.
    change (ms_rest (advance (MS p t []) (length (digits i ++ "."))))
      with (skipn (length (digits i ++ ".")) t) in H.
    destruct (run is_ws (skipn (length (digits i ++ ".")) t)); [|reflexivity].
    exfalso. apply H. reflexivity.
  - exfalso. apply H. cbn [mt ms_rest]. rewrite Ep. reflexivity.
Qed.

Lemma doc_split : forall b i, 1 <= i <= 16 ->
  well_formed_doc b = pre_doc b i ++ header i ++ b i ++ post_doc b i.
Proof.
  intros b i Hi. unfold well_formed_doc, pre_doc, post_doc.
  replace 16 with ((i - 1) + S (16 - i)) at 1 by lia.
  rewrite seq_app. replace (1 + (i - 1)) with i by lia. cbn [seq].
  rewrite map_app, concat_app. cbn [map concat]. unfold doc_segment at 2.
  rewrite <- !app_assoc. reflexivity.
Qed.

Lemma concat_segments : forall b i l,
  (forall j, In j l -> 1 <= j < i /\ j < 16) ->
  1 <= i <= 16 -> header_facts i = true ->
  (forall j, j <= 16 -> no_markers (b j) = true) ->
  (forall j, j < 16 -> ends_nl (b j) = true) ->
  occurs_by (starts_mark (digits i ++ ".")) (concat (map (doc_segment b) l)) = false /\
  ends_nl (concat (map (doc_segment b) l)) = true.
Proof.
  intros b i l. induction l as [|j l IH]; intros Hl Hi Hf Hb Hnl; [split; reflexivity|].
  destruct (header_facts_parts i Hf) as [_ [_ [Hw [_ [_ Hhead]]]]].
  assert (Hq : forall a c, a <> [] -> ends_nl a = true ->
            starts_mark (digits i ++ ".") (a ++ c) = true ->
            starts_mark (digits i ++ ".") a = true)
    by (intros a c; apply starts_mark_straddle; exact Hw).
  destruct (Hl j (or_introl eq_refl)) as [Hj1 Hj2].
  destruct IH as [IH1 IH2]; [intros j' Hj'; apply Hl; right; exact Hj' | assumption.. |].
  cbn [map concat]. unfold doc_segment. rewrite <- app_assoc.
  assert (Hbj : ends_nl (b j) = true) by (apply Hnl; lia).
  split.
  - apply occurs_by_app; [exact Hq | apply Hhead; lia | |apply ends_nl_header].
    apply occurs_by_app; [exact Hq | apply no_markers_spec; [apply Hb; lia | lia] | exact IH1 | exact Hbj].
  - apply ends_nl_app; [apply ends_nl_header|]. apply ends_nl_app; assumption.
Qed.

Lemma pre_doc_facts : forall b i, 1 <= i <= 16 -> header_facts i = true ->
  (forall j, j <= 16 -> no_markers (b j) = true) ->
  (forall j, j < 16 -> ends_nl (b j) = true) ->
  occurs_by (starts_mark (digits i ++ ".")) (pre_doc b i) = false /\
  ends_nl (pre_doc b i) = true.
Proof.
  intros b i Hi Hf Hb Hnl. unfold pre_doc.
  destruct (header_facts_parts i Hf) as [_ [_ [Hw _]]].
  destruct (concat_segments b i (seq 1 (i - 1))) as [H1 H2]; try assumption.
  { intros j Hj. apply in_seq in Hj. lia. }
  split.
  - apply occurs_by_app; [ | apply no_markers_spec; [apply Hb; lia | lia] | exact H1 | apply Hnl; lia].
    intros a c. apply starts_mark_straddle. exact Hw.
  - apply ends_nl_app; [apply Hnl; lia | exact H2].
Qed.

(** The strict search of section [i] in a well-formed document reaches
    the header of section [i]. *)
Lemma find_section_wf : forall b i c0, 1 <= i <= 16 ->
  (forall j, j <= 16 -> no_markers (b j) = true) ->
  (forall j, j < 16 -> ends_nl (b j) = true) ->
  let Y := chr_nl :: b i ++ post_doc b i in
  c0 <= length Y ->
  (forall c, c < c0 -> at_boundary (S i) (skipn c Y) = false) ->
  at_boundary (S i) (skipn c0 Y) = true ->
  find_section (well_formed_doc b) i =
    digits i ++ ". " ++ get_default_section_title (digits i) ++ firstn c0 Y.
Proof.
  intros b i c0 Hi Hb Hnl Y Hc0 Hbefore Hat.
  pose proof (header_facts_all i Hi) as Hf.
  destruct (header_facts_parts i Hf) as [HT [_ [Hw _]]].
  destruct (pre_doc_facts b i Hi Hf Hb Hnl) as [Hocc Hpre].
  unfold find_section. rewrite (doc_split b i Hi). unfold search.
  rewrite (search_skip_lines _ (starts_mark (digits i ++ "."))).
  - rewrite header_app.
    destruct (mt_strict_header i (get_default_section_title (digits i)) Y c0
                (prev_after None (pre_doc b i)) HT Hc0 Hbefore Hat) as [st [E Hcaps]].
    rewrite (search_from_here _ _ _ _ _ E). unfold group. cbn [rm_caps].
    rewrite Hcaps. reflexivity.
  - intros p' t. apply strict_starts.
  - intros a c. apply starts_mark_straddle. exact Hw.
  - exact Hocc.
  - exact Hpre.
Qed.

Lemma post_doc_S : forall b i, i < 16 ->
  post_doc b i = header (S i) ++ b (S i) ++ post_doc b (S i).
Proof.
  intros b i Hi. unfold post_doc. replace (16 - i) with (S (16 - S i)) by lia.
  cbn [seq map concat]. unfold doc_segment. rewrite <- app_assoc. reflexivity.
Qed.

Lemma post_doc_16 : forall b, post_doc b 16 = [].
Proof. reflexivity. Qed.

Lemma ends_nl_nl_cons : forall t, ends_nl t = true -> ends_nl (chr_nl :: t) = true.
Proof.
  intros t H. unfold ends_nl in *. cbn [rev].
  destruct (rev t); [reflexivity | exact H].
Qed.

Lemma ends_nl_skipn_eq : forall X c, c < length X -> ends_nl (skipn c X) = ends_nl X.
Proof.
  induction X as [|a X IH]; intros c Hc; [simpl in Hc; lia|].
  destruct c as [|c]; [reflexivity|]. cbn [skipn]. simpl in Hc. rewrite IH by lia.
  unfold ends_nl. cbn [rev]. destruct X as [|x X]; [simpl in Hc; lia|].
  destruct (rev (x :: X)) eqn:E; [|reflexivity].
  apply (f_equal (@length ascii)) in E. rewrite length_rev in E. discriminate.
Qed.

Lemma dollar_ok_ends_nl : forall t, dollar_ok t = true -> ends_nl t = true.
Proof. intros [|a [|b t]] H; [reflexivity | exact H | discriminate]. Qed.

(** No marker of [S i] inside the body of section [i] behind its header
    line break. *)
Lemma body_no_mark : forall b i, 1 <= i <= 16 ->
  (forall j, j <= 16 -> no_markers (b j) = true) ->
  occurs_by (starts_mark (digits (S i) ++ ".")) (chr_nl :: b i) = false.
Proof.
  intros b i Hi Hb. pose proof (header_facts_all i Hi) as Hf.
  destruct (header_facts_parts i Hf) as [_ [_ [_ [_ [Hd _]]]]].
  cbn [occurs_by]. rewrite starts_mark_nl by exact Hd. cbn [orb].
  apply no_markers_spec; [apply Hb; lia | lia].
Qed.

Lemma capture_before_16 : forall b i, 1 <= i < 16 ->
  (forall j, j <= 16 -> no_markers (b j) = true) ->
  (forall j, j < 16 -> ends_nl (b j) = true) ->
  let Y := chr_nl :: b i ++ post_doc b i in
  (forall c, c < length (chr_nl :: b i) -> at_boundary (S i) (skipn c Y) = false) /\
  at_boundary (S i) (skipn (length (chr_nl :: b i)) Y) = true.
Proof.
  intros b i Hi Hb Hnl Y.
  pose proof (header_facts_all i ltac:(lia)) as Hf.
  destruct (header_facts_parts i Hf) as [_ [_ [_ [Hw _]]]].
  assert (HY : Y = (chr_nl :: b i) ++ header (S i) ++ b (S i) ++ post_doc b (S i))
    by (unfold Y; rewrite post_doc_S by lia; reflexivity).
  rewrite HY. split.
  - intros c Hc. unfold at_boundary. apply orb_false_iff. split.
    + rewrite skipn_app. replace (c - length (chr_nl :: b i)) with 0 by lia. cbn [skipn].
      destruct (starts_mark _ _) eqn:E; [exfalso|reflexivity].
      apply starts_mark_straddle in E; [| exact Hw | |].
      * rewrite (occurs_by_skipn _ _ c (body_no_mark b i ltac:(lia) Hb) Hc) in E. discriminate.
      * intro H0. apply (f_equal (@length ascii)) in H0. rewrite length_skipn in H0.
        cbn [length] in H0, Hc. lia.
      * apply ends_nl_skipn. apply ends_nl_nl_cons. apply Hnl. lia.
    + destruct (dollar_ok _) eqn:E; [exfalso|reflexivity].
      apply dollar_ok_len in E. rewrite skipn_app, length_app, length_skipn in E.
      replace (c - length (chr_nl :: b i)) with 0 in E by lia. cbn [skipn] in E.
      unfold header in E. rewrite !length_app in E. cbn [length] in E, Hc. lia.
  - rewrite skipn_len_app. unfold at_boundary.
    rewrite starts_mark_header by lia. reflexivity.
Qed.

Lemma title_of_header : forall i G, 1 <= i <= 16 ->
  (G = [] \/ exists g, G = chr_nl :: g) ->
  section_title_of (digits i) (digits i ++ ". " ++ get_default_section_title (digits i) ++ G) =
    get_default_section_title (digits i).
Proof.
  intros i G Hi HG. pose proof (header_facts_all i Hi) as Hf.
  destruct (header_facts_parts i Hf) as [HT _].
  unfold section_title_of, rmatch_, match_at.
  replace (digits i ++ ". " ++ get_default_section_title (digits i) ++ G)
    with ((digits i ++ ".") ++ " "%char :: get_default_section_title (digits i) ++ G)
    by (rewrite <- app_assoc; reflexivity).
  destruct (mt_title_line (digits i) _ G None HT HG) as [st [E Hc]].
  rewrite E. unfold group. cbn [rm_caps]. rewrite Hc. reflexivity.
Qed.

Lemma content_of_header : forall i g, 1 <= i <= 16 ->
  content_text_of (digits i ++ ". " ++ get_default_section_title (digits i) ++ chr_nl :: g) =
    strip g.
Proof.
  intros i g Hi. pose proof (header_facts_all i Hi) as Hf.
  destruct (header_facts_parts i Hf) as [HT [Hd _]].
  destruct (title_ok_inv _ HT) as [_ [_ [_ [_ HTn]]]].
  unfold content_text_of.
  replace (digits i ++ ". " ++ get_default_section_title (digits i) ++ chr_nl :: g)
    with ((digits i ++ ". " ++ get_default_section_title (digits i)) ++ chr_nl :: g)
    by (rewrite <- !app_assoc; reflexivity).
  rewrite split_once_line; [reflexivity|].
  unfold has_no_nl in *. rewrite app_assoc, forallb_app, Hd, HTn. reflexivity.
Qed.

Lemma content_of_header_only : forall i, 1 <= i <= 16 ->
  content_text_of (digits i ++ ". " ++ get_default_section_title (digits i) ++ []) = [].
Proof.
  intros i Hi. pose proof (header_facts_all i Hi) as Hf.
  destruct (header_facts_parts i Hf) as [HT [Hd _]].
  destruct (title_ok_inv _ HT) as [_ [_ [_ [_ HTn]]]].
  unfold content_text_of. rewrite app_nil_r, app_assoc, split_once_noline; [reflexivity|].
  unfold has_no_nl in *. rewrite forallb_app, Hd, HTn. reflexivity.
Qed.

(** ** The bullet test of [add_content_with_formatting] *)

Lemma ws_not_marker : forall c, is_ws c = true -> is_marker c = false.
Proof.
  intros c H. unfold is_marker.
  destruct (Ascii.eqb_spec c "-"); [subst; discriminate|].
  destruct (Ascii.eqb_spec c "*"); [subst; discriminate|]. reflexivity.
Qed.

Lemma mt_bullet : forall p t,
  match mt bullet_pattern (MS p t []) Some with Some _ => true | None => false end =
  bol_ok p && bullet_at t.
Proof.
  intros p t. unfold bullet_pattern. rewrite mt_seq, mt_bol. cbn [ms_prev].
  destruct (bol_ok p); [cbn [andb] | reflexivity].
  rewrite mt_seq, mt_rep. cbn [ms_rest].
  rewrite try_counts_greedy_max; [| lia |].
  - rewrite mt_seq, mt_cls. unfold advance. cbn [ms_rest ms_prev ms_caps].
    rewrite skipn_run_lstrip. unfold bullet_at.
    destruct (lstrip t) as [|m [|c r]]; [reflexivity| |];
      (destruct (is_marker m); [|reflexivity]); rewrite mt_cls; cbn [ms_rest skipn andb];
      [reflexivity | destruct (is_ws c); reflexivity].
  - intros c Hc. rewrite mt_seq, mt_cls. unfold advance at 1. cbn [ms_rest].
    destruct (run_skipn_head is_ws t c ltac:(lia)) as [x [r [-> Hx]]].
    rewrite (ws_not_marker x Hx). reflexivity.
Qed.

Lemma found_search : forall r t p acc,
  match search_from r p acc t with Some _ => true | None => false end = found r p t.
Proof.
  intros r t. induction t as [|c t IH]; intros p acc; cbn [search_from found];
    unfold match_at; destruct (mt r _ Some); auto.
Qed.

Lemma found_bullet : forall p t,
  found bullet_pattern p t =
  (bol_ok p && bullet_at t) ||
  match t with [] => false | c :: t' => found bullet_pattern (Some c) t' end.
Proof.
  intros p t. rewrite <- mt_bullet. destruct t; cbn [found];
    destruct (mt bullet_pattern _ Some); reflexivity.
Qed.

Lemma found_bullet_skip : forall l q rest, has_no_nl l = true -> bol_ok q = false ->
  found bullet_pattern q (l ++ rest) = found bullet_pattern (prev_after q l) rest /\
  bol_ok (prev_after q l) = false.
Proof.
  induction l as [|a l IH]; intros q rest Hl Hq; [split; [reflexivity | exact Hq]|].
  cbn [has_no_nl forallb] in Hl. apply andb_prop in Hl as [Ha Hl].
  assert (Hqa : bol_ok (Some a) = false).
  { unfold not_nl in Ha. simpl. destruct (Ascii.eqb a chr_nl); [discriminate | reflexivity]. }
  rewrite prev_after_cons. rewrite <- (proj1 (IH (Some a) rest Hl Hqa)).
  split; [|exact (proj2 (IH (Some a) rest Hl Hqa))].
  rewrite found_bullet. rewrite Hq. reflexivity.
Qed.

Lemma found_bullet_line : forall p l t', bol_ok p = true -> has_no_nl l = true ->
  found bullet_pattern p (l ++ chr_nl :: t') =
  marker_line l false || found bullet_pattern (Some chr_nl) t'.
Proof.
  intros p l t' Hp Hl.
  assert (Hrest : forall q, bol_ok q = false ->
            found bullet_pattern q (chr_nl :: t') = found bullet_pattern (Some chr_nl) t').
  { intros q Hq. rewrite found_bullet, Hq. reflexivity. }
  assert (Hat : bullet_at t' = true -> found bullet_pattern (Some chr_nl) t' = true).
  { intro H. rewrite found_bullet. rewrite H. reflexivity. }
  assert (Hline : bullet_at (l ++ chr_nl :: t') =
                  match lstrip l with [] => bullet_at t' | _ => marker_line l false end).
  { unfold bullet_at, marker_line. rewrite lstrip_app.
    destruct (lstrip l) as [|m [|c r]]; cbn [app lstrip]; try reflexivity. }
  destruct l as [|a l].
  - cbn [app]. rewrite found_bullet, Hp. cbv beta iota. cbn [andb].
    replace (bullet_at (chr_nl :: t')) with (bullet_at t') by reflexivity.
    unfold marker_line. cbn [lstrip orb].
    destruct (bullet_at t') eqn:E; [rewrite (Hat eq_refl); reflexivity | reflexivity].
  - cbn [has_no_nl forallb] in Hl. apply andb_prop in Hl as [Ha Hl].
    assert (Hqa : bol_ok (Some a) = false).
    { unfold not_nl in Ha. simpl. destruct (Ascii.eqb a chr_nl); [discriminate | reflexivity]. }
    change ((a :: l) ++ chr_nl :: t') with (a :: (l ++ chr_nl :: t')).
    rewrite found_bullet, Hp. cbn [andb].
    destruct (found_bullet_skip l (Some a) (chr_nl :: t') Hl Hqa) as [E1 E2].
    rewrite E1, (Hrest _ E2).
    change (a :: l ++ chr_nl :: t') with ((a :: l) ++ chr_nl :: t'). rewrite Hline.
    destruct (lstrip (a :: l)) eqn:Els; [|reflexivity].
    unfold marker_line at 1. rewrite Els. cbn [orb].
    destruct (bullet_at t') eqn:E; [rewrite (Hat eq_refl); reflexivity | reflexivity].
Qed.

Lemma found_bullet_last : forall p l, has_no_nl l = true ->
  found bullet_pattern p l = bol_ok p && marker_line l true.
Proof.
  intros p l Hl. destruct l as [|a l].
  - rewrite found_bullet. unfold bullet_at, marker_line. cbn.
    destruct (bol_ok p); reflexivity.
  - cbn [has_no_nl forallb] in Hl. apply andb_prop in Hl as [Ha Hl].
    assert (Hqa : bol_ok (Some a) = false).
    { unfold not_nl in Ha. simpl. destruct (Ascii.eqb a chr_nl); [discriminate | reflexivity]. }
    rewrite found_bullet. cbv beta iota.
    pose proof (found_bullet_skip l (Some a) [] Hl Hqa) as [E1 E2].
    rewrite app_nil_r in E1. rewrite E1.
    rewrite found_bullet, E2. cbn [andb orb].
    unfold bullet_at, marker_line.
    destruct (lstrip (a :: l)) as [|m [|c r]]; cbn [andb negb];
      rewrite ?andb_false_r, ?orb_false_r; reflexivity.
Qed.

Lemma split_on_nonempty : forall sep t, split_on sep t <> [].
Proof.
  intros sep [|c t]; cbn [split_on]; [discriminate|].
  destruct (Ascii.eqb c sep); [discriminate|]. destruct (split_on sep t); discriminate.
Qed.

Lemma split_on_nl_shape : forall t,
  (has_no_nl t = true /\ split_on chr_nl t = [t]) \/
  exists l t', has_no_nl l = true /\ t = l ++ chr_nl :: t' /\
               split_on chr_nl t = l :: split_on chr_nl t'.
Proof.
  induction t as [|c t IH]; [left; split; reflexivity|].
  cbn [split_on]. destruct (Ascii.eqb c chr_nl) eqn:Ec.
  - right. exists [], t. apply Ascii.eqb_eq in Ec. subst c. auto.
  - destruct IH as [[Hn Hs] | [l [t' [Hn [Ht Hs]]]]].
    + left. rewrite Hs. split; [|reflexivity].
      cbn [has_no_nl forallb]. unfold not_nl. rewrite Ec. exact Hn.
    + right. exists (c :: l), t'. rewrite Hs. split; [|split].
      * cbn [has_no_nl forallb]. unfold not_nl. rewrite Ec. exact Hn.
      * rewrite Ht. reflexivity.
      * reflexivity.
Qed.

(** The bullet test of [add_content_with_formatting], line by line. *)
Lemma found_bullet_lines : forall n t p, length t <= n -> bol_ok p = true ->
  found bullet_pattern p t = lines_trigger (split_on chr_nl t).
Proof.
  induction n as [|n IH]; intros t p Hlen Hp;
    destruct (split_on_nl_shape t) as [[Hn Hs] | [l [t' [Hn [Ht Hs]]]]].
  - rewrite Hs, found_bullet_last, Hp by exact Hn. reflexivity.
  - subst t. rewrite length_app in Hlen. simpl in Hlen. lia.
  - rewrite Hs, found_bullet_last, Hp by exact Hn. reflexivity.
  - subst t. rewrite Hs, found_bullet_line by assumption.
    rewrite (IH t' (Some chr_nl)); [| rewrite length_app in Hlen; simpl in Hlen; lia | reflexivity].
    cbn [lines_trigger].
    destruct (split_on chr_nl t') eqn:E; [exfalso; exact (split_on_nonempty _ _ E)|].
    reflexivity.
Qed.

Lemma bullet_mode_lines : forall content,
  match search bullet_pattern content with Some _ => true | None => false end =
  lines_trigger (split_on chr_nl content).
Proof.
  intro content. unfold search. rewrite found_search.
  apply (found_bullet_lines (length content)); reflexivity.
Qed.

(** ** The mixed mode *)

Lemma merge_items_app : forall a b bs, merge_items a (merge_items b bs) = merge_items (a ++ b) bs.
Proof.
  intros a b bs. unfold merge_items.
  destruct bs as [|[] bs]; cbn; try rewrite app_assoc; reflexivity.
Qed.

Lemma mixed_blocks_bullet : forall l ls, starts_with_marker l = true ->
  mixed_blocks (l :: ls) = merge_items [strip (tl l)] (mixed_blocks ls).
Proof.
  intros l ls H. cbn [mixed_blocks]. rewrite H. unfold merge_items.
  destruct (mixed_blocks ls) as [|[] bs]; reflexivity.
Qed.

Lemma format_lines_blocks : forall lines items paragraphs story,
  (items = [] \/ paragraphs = []) ->
  format_lines lines items paragraphs story =
  story ++ map para paragraphs ++
    (if nonempty items then merge_items items else fun bs => bs)
      (mixed_blocks (filter nonempty (map strip lines))).
Proof.
  induction lines as [|line lines IH]; intros items paragraphs story Hip.
  - cbn [format_lines map filter mixed_blocks].
    destruct items as [|i items]; cbn [nonempty].
    + rewrite app_nil_r. reflexivity.
    + destruct Hip as [Hi | ->]; [discriminate|]. cbn [map]. rewrite !app_nil_r. reflexivity.
  - cbn [format_lines map filter].
    destruct (strip line) as [|c cs] eqn:Es; cbn [nonempty].
    + apply IH. exact Hip.
    + destruct (is_marker c) eqn:Em.
      * rewrite IH by (right; reflexivity). cbn [map].
        rewrite mixed_blocks_bullet by (cbn; exact Em). cbn [tl].
        destruct items as [|i items]; cbn [nonempty app].
        -- rewrite <- app_assoc. reflexivity.
        -- destruct Hip as [Hi | ->]; [discriminate|]. cbn [map].
           rewrite merge_items_app, !app_nil_r. reflexivity.
      * rewrite IH by (left; reflexivity).
        cbn [mixed_blocks starts_with_marker]. rewrite Em. cbn [nonempty].
        destruct items as [|i items]; cbn [nonempty].
        -- rewrite map_app, <- app_assoc. reflexivity.
        -- destruct Hip as [Hi | ->]; [discriminate|]. cbn [map app].
           rewrite <- app_assoc. reflexivity.
Qed.

(* ------------------------------------------------------------------ *)
(** ** What a match consumes *)

(** The literal a pattern starts with. *)
Fixpoint lit_prefix (r : regex) : str :=
  match r with
  | RLit w => w
  | RSeq r1 _ => lit_prefix r1
  | _ => []
  end.

(** A successful match hands the continuation a state whose remaining
    input is a suffix of the input it started from. *)
Lemma mt_cont : forall r st k x, mt r st k = Some x ->
  exists st' u, k st' = Some x /\ ms_rest st = u ++ ms_rest st'.
Proof.
  induction r as [w|f|f lo g|r1 IH1 r2 IH2|r1 IH1 r2 IH2|n r IH|r IH| | |];
    intros st k x H.
  - cbn [mt] in H. destruct (prefixb w (ms_rest st)) eqn:E; [|discriminate].
    apply prefixb_inv in E as [t Et].
    exists (advance st (length w)), w. split; [exact H|].
    unfold advance. cbn [ms_rest]. rewrite Et, skipn_len_app. reflexivity.
  - cbn [mt] in H. destruct (ms_rest st) as [|c t] eqn:E; [discriminate|].
    destruct (f c); [|discriminate].
    exists (advance st 1), [c]. split; [exact H|].
    unfold advance. cbn [ms_rest]. rewrite E. reflexivity.
  - apply mt_rep_inv in H as [c H].
    exists (advance st c), (firstn c (ms_rest st)). split; [exact H|].
    unfold advance. cbn [ms_rest]. rewrite firstn_skipn. reflexivity.
  - rewrite mt_seq in H. apply IH1 in H as [st1 [u1 [H1 E1]]].
    apply IH2 in H1 as [st2 [u2 [H2 E2]]].
    exists st2, (u1 ++ u2). split; [exact H2|]. rewrite E1, E2, app_assoc. reflexivity.
  - cbn [mt] in H. destruct (mt r1 st k) eqn:E.
    + injection H as <-. exact (IH1 st k _ E).
    + exact (IH2 st k x H).
  - cbn [mt] in H. apply IH in H as [st1 [u [H1 E1]]].
    eexists. exists u. split; [exact H1|]. exact E1.
  - cbn [mt] in H. destruct (mt r st Some); [|discriminate].
    exists st, []. split; [exact H | reflexivity].
  - cbn [mt] in H. destruct (dollar_ok (ms_rest st)); [|discriminate].
    exists st, []. split; [exact H | reflexivity].
  - cbn [mt] in H. destruct (ms_rest st) eqn:E; [|discriminate].
    exists st, []. split; [exact H | rewrite E; reflexivity].
  - cbn [mt] in H. destruct (bol_ok (ms_prev st)); [|discriminate].
    exists st, []. split; [exact H | reflexivity].
Qed.

(** ... and the consumed part starts with the pattern's leading literal. *)
Lemma mt_cont_lit : forall r st k x, mt r st k = Some x ->
  exists st' u, k st' = Some x /\ ms_rest st = lit_prefix r ++ u ++ ms_rest st'.
Proof.
  induction r as [w|f|f lo g|r1 IH1 r2 IH2|r1 _ r2 _|n r _|r _| | |];
    intros st k x H; try (apply mt_cont in H as [st' [u [H E]]];
                          exists st', u; split; [exact H | exact E]).
  - cbn [mt] in H. destruct (prefixb w (ms_rest st)) eqn:E; [|discriminate].
    apply prefixb_inv in E as [t Et].
    exists (advance st (length w)), []. split; [exact H|].
    unfold advance. cbn [ms_rest lit_prefix app]. rewrite Et, skipn_len_app. reflexivity.
  - rewrite mt_seq in H. apply IH1 in H as [st1 [u1 [H1 E1]]].
    apply mt_cont in H1 as [st2 [u2 [H2 E2]]].
    exists st2, (u1 ++ u2). split; [exact H2|].
    cbn [lit_prefix]. rewrite E1, E2, !app_assoc. reflexivity.
Qed.

Lemma mt_consumed : forall r st x, mt r st Some = Some x ->
  exists u, ms_rest st = lit_prefix r ++ u ++ ms_rest x.
Proof.
  intros r st x H. apply mt_cont_lit in H as [st' [u [H E]]].
  injection H as <-. exists u. exact E.
Qed.

(** A search result splits the searched text into the text before, the
    match and the text after; the match starts with the pattern's leading
    literal. *)
Lemma search_from_parts : forall r s p acc m, search_from r p acc s = Some m ->
  rev acc ++ s = rm_before m ++ rm_text m ++ rm_after m /\
  exists u, rm_text m = lit_prefix r ++ u.
Proof.
  intros r s. induction s as [|c s IH]; intros p acc m H; cbn [search_from] in H;
    unfold match_at in H.
  - destruct (mt r (MS p [] []) Some) as [st|] eqn:E; [|discriminate].
    injection H as <-. cbn [rm_before rm_text rm_after].
    apply mt_consumed in E as [u E]. cbn [ms_rest] in E.
    destruct (lit_prefix r) eqn:El; [|discriminate]. destruct u; [|discriminate].
    cbn [app] in E. rewrite <- E. split; [reflexivity|]. exists []. reflexivity.
  - destruct (mt r (MS p (c :: s) []) Some) as [st|] eqn:E.
    + injection H as <-. cbn [rm_before rm_text rm_after].
      apply mt_consumed in E as [u E]. cbn [ms_rest] in E.
      assert (Ef : firstn (length (c :: s) - length (ms_rest st)) (c :: s) = lit_prefix r ++ u).
      { rewrite E, app_assoc, length_app.
        replace (length (lit_prefix r ++ u) + length (ms_rest st) - length (ms_rest st))
          with (length (lit_prefix r ++ u)) by lia.
        apply firstn_len_app. }
      match goal with |- context [firstn ?n (c :: s)] =>
        replace (firstn n (c :: s)) with (lit_prefix r ++ u) by (symmetry; exact Ef) end.
      split; [|exists u; reflexivity].
      rewrite E, !app_assoc. reflexivity.
    + apply IH in H as [H1 H2]. split; [|exact H2].
      rewrite <- H1. cbn [rev]. rewrite <- app_assoc. reflexivity.
Qed.

Lemma search_parts : forall r s m, search r s = Some m ->
  s = rm_before m ++ rm_text m ++ rm_after m /\ exists u, rm_text m = lit_prefix r ++ u.
Proof. intros r s m H. exact (search_from_parts r s None [] m H). Qed.

(** A pattern ending in [$] leaves nothing or a final line break. *)
Lemma mt_ends_dollar : forall r1 r2 st x, mt (RSeq r1 (RSeq r2 RDollar)) st Some = Some x ->
  dollar_ok (ms_rest x) = true.
Proof.
  intros r1 r2 st x H. rewrite mt_seq in H.
  apply mt_cont in H as [st1 [_ [H _]]]. rewrite mt_seq in H.
  apply mt_cont in H as [st2 [_ [H _]]]. cbn [mt] in H.
  destruct (dollar_ok (ms_rest st2)) eqn:E; [|discriminate].
  injection H as <-. exact E.
Qed.

(* ------------------------------------------------------------------ *)
(** ** [extract_sections] *)

Lemma fold_left_ext' : forall {A B : Type} (f g : A -> B -> A) l a,
  (forall a b, f a b = g a b) -> fold_left f l a = fold_left g l a.
Proof. intros A B f g l. induction l as [|b l IH]; intros a H; simpl; [reflexivity|]. rewrite H. apply IH, H. Qed.

Lemma extract_sections_eq : forall content,
  extract_sections content =
  map (fun pn => (snd pn, section_value content pn)) section_patterns.
Proof.
  intro content. unfold extract_sections.
  rewrite (fold_left_ext' _ (fun d pn => dict_set d (snd pn) (section_value content pn))).
  - reflexivity.
  - intros d [r n]. unfold extract_sections_step, section_value. cbn [fst snd].
    destruct (search r content); reflexivity.
Qed.

Lemma lookup_map_keys : forall {A V : Type} (g : A * str -> V) l k v,
  lookup k (map (fun pn => (snd pn, g pn)) l) = Some v ->
  exists pn, In pn l /\ k = snd pn /\ v = g pn.
Proof.
  intros A V g l k v. induction l as [|pn l IH]; intro H; cbn [map lookup] in H; [discriminate|].
  destruct (str_eqb k (snd pn)) eqn:E.
  - injection H as <-. apply str_eqb_eq in E. exists pn.
    split; [left; reflexivity | split; [exact E | reflexivity]].
  - apply IH in H as [pn' [Hin H]]. exists pn'. split; [right; exact Hin | exact H].
Qed.

Lemma section_patterns_lit : forall pn, In pn section_patterns ->
  lit_prefix (fst pn) = snd pn ++ ".".
Proof.
  intros pn H. do 16 (destruct H as [<-|H]; [reflexivity|]). destruct H.
Qed.

(* ------------------------------------------------------------------ *)
(** ** Trimming *)

Lemma lstrip_suffix : forall t, exists u, t = u ++ lstrip t.
Proof.
  induction t as [|c t IH]; [exists []; reflexivity|]. cbn [lstrip].
  destruct (is_ws c); [|exists []; reflexivity].
  destruct IH as [u Hu]. exists (c :: u). cbn [app]. rewrite <- Hu. reflexivity.
Qed.

Lemma lstrip_head : forall t c r, lstrip t = c :: r -> is_ws c = false.
Proof.
  induction t as [|a t IH]; intros c r H; cbn [lstrip] in H; [discriminate|].
  destruct (is_ws a) eqn:E; [exact (IH c r H)|]. injection H as <- _. exact E.
Qed.

Lemma lstrip_fix : forall t, (forall c r, t = c :: r -> is_ws c = false) -> lstrip t = t.
Proof.
  intros [|c r] H; [reflexivity|]. cbn [lstrip]. rewrite (H c r eq_refl). reflexivity.
Qed.

Lemma lstrip_idem : forall t, lstrip (lstrip t) = lstrip t.
Proof. intro t. apply lstrip_fix. intros c r H. exact (lstrip_head t c r H). Qed.

Lemma strip_idem : forall t, strip (strip t) = strip t.
Proof.
  intro t. unfold strip, rstrip.
  set (a := lstrip t).
  destruct (lstrip_suffix (rev a)) as [u Hu].
  set (r := lstrip (rev a)) in *.
  assert (Ha : a = rev r ++ rev u) by (rewrite <- rev_app_distr, <- Hu, rev_involutive; reflexivity).
  assert (Hl : lstrip (rev r) = rev r).
  { apply lstrip_fix. intros c r' E. apply (lstrip_head t c (r' ++ rev u)).
    fold a. rewrite Ha, E. reflexivity. }
  rewrite Hl, rev_involutive. unfold r. rewrite lstrip_idem. reflexivity.
Qed.

Lemma has_char_app : forall c u v, has_char c (u ++ v) = has_char c u || has_char c v.
Proof. intros c u v. unfold has_char. apply existsb_app. Qed.

Lemma has_char_rev : forall c u, has_char c (rev u) = has_char c u.
Proof.
  intros c u. induction u as [|a u IH]; [reflexivity|].
  cbn [rev]. rewrite has_char_app, IH. cbn. rewrite orb_false_r, orb_comm. reflexivity.
Qed.

Lemma has_char_lstrip : forall c u, has_char c u = false -> has_char c (lstrip u) = false.
Proof.
  intros c u H. destruct (lstrip_suffix u) as [w Hw]. rewrite Hw, has_char_app in H.
  apply orb_false_iff in H. apply H.
Qed.

Lemma has_char_strip : forall c u, has_char c u = false -> has_char c (strip u) = false.
Proof.
  intros c u H. unfold strip, rstrip. rewrite has_char_rev.
  apply has_char_lstrip. rewrite has_char_rev. apply has_char_lstrip. exact H.
Qed.

Lemma split_on_no_sep : forall sep t, Forall (fun l => has_char sep l = false) (split_on sep t).
Proof.
  intros sep t. induction t as [|c t IH]; cbn [split_on]; [repeat constructor|].
  destruct (Ascii.eqb c sep) eqn:E; [constructor; [reflexivity | exact IH]|].
  destruct (split_on sep t) as [|l ls]; [repeat constructor; cbn; rewrite Ascii.eqb_sym, E; reflexivity|].
  inversion IH as [|? ? Hl Hls]; subst. constructor; [|exact Hls].
  cbn [has_char existsb]. fold (has_char sep l). rewrite Ascii.eqb_sym, E, Hl. reflexivity.
Qed.

(* ------------------------------------------------------------------ *)
(** ** The blocks of [add_content_with_formatting] *)

Lemma format_lines_app : forall lines items paragraphs story s,
  format_lines lines items paragraphs (story ++ s) = story ++ format_lines lines items paragraphs s.
Proof.
  induction lines as [|l ls IH]; intros items paragraphs story s; cbn [format_lines].
  - destruct (nonempty items); rewrite <- !app_assoc; reflexivity.
  - destruct (strip l) as [|c tl]; [apply IH|].
    destruct (is_marker c).
    + rewrite <- app_assoc. apply IH.
    + destruct (nonempty items); [rewrite <- app_assoc|]; apply IH.
Qed.

Lemma fold_paragraphs_app : forall ps story s,
  fold_left (fun story p => if nonempty (strip p) then story ++ [para (strip p)] else story)
    ps (story ++ s) =
  story ++ fold_left (fun story p => if nonempty (strip p) then story ++ [para (strip p)] else story)
    ps s.
Proof.
  induction ps as [|p ps IH]; intros story s; cbn [fold_left]; [reflexivity|].
  destruct (nonempty (strip p)); [rewrite <- app_assoc|]; apply IH.
Qed.

Lemma formatting_app : forall story content,
  add_content_with_formatting story content = story ++ add_content_with_formatting [] content.
Proof.
  intros story content. unfold add_content_with_formatting.
  destruct (search bullet_pattern content).
  - rewrite <- format_lines_app, app_nil_r. reflexivity.
  - rewrite <- fold_paragraphs_app, app_nil_r. reflexivity.
Qed.

Lemma format_lines_blocks_ok : forall lines items paragraphs story,
  Forall (fun t => strip t = t) items ->
  Forall (fun p => p <> [] /\ strip p = p) paragraphs ->
  Forall text_block story ->
  Forall text_block (format_lines lines items paragraphs story).
Proof.
  assert (Hps : forall paragraphs, Forall (fun p => p <> [] /\ strip p = p) paragraphs ->
            Forall text_block (map para paragraphs)).
  { intros ps Hp. rewrite Forall_map. eapply Forall_impl; [|exact Hp]. intros p H. exact H. }
  assert (Hit : forall items story, Forall (fun t => strip t = t) items ->
            Forall text_block story ->
            Forall text_block (if nonempty items then story ++ [ListFlowable items] else story)).
  { intros [|t ts] story Hi Hs; cbn [nonempty]; [exact Hs|].
    apply Forall_app. split; [exact Hs|].
    constructor; [split; [discriminate | exact Hi] | constructor]. }
  induction lines as [|l ls IH]; intros items paragraphs story Hi Hp Hs; cbn [format_lines].
  - apply Forall_app. split; [apply Hit; assumption | apply Hps; exact Hp].
  - destruct (strip l) as [|c tl] eqn:Es; [apply IH; assumption|].
    assert (Hc : strip (c :: tl) = c :: tl) by (rewrite <- Es; apply strip_idem).
    destruct (is_marker c); apply IH.
    + apply Forall_app. split; [exact Hi|]. constructor; [apply strip_idem | constructor].
    + constructor.
    + apply Forall_app. split; [exact Hs | apply Hps; exact Hp].
    + constructor.
    + apply Forall_app. split; [exact Hp|].
      constructor; [split; [discriminate | exact Hc] | constructor].
    + apply Hit; assumption.
Qed.

Lemma fold_paragraphs_ok : forall ps,
  Forall text_block
    (fold_left (fun story p => if nonempty (strip p) then story ++ [para (strip p)] else story)
       ps []).
Proof.
  intro ps. cut (forall s, Forall text_block s -> Forall text_block
    (fold_left (fun story p => if nonempty (strip p) then story ++ [para (strip p)] else story)
       ps s)); [intro H; apply H; constructor|].
  induction ps as [|p ps IH]; intros s Hs; cbn [fold_left]; [exact Hs|].
  apply IH. destruct (strip p) as [|c tl] eqn:E; cbn [nonempty]; [exact Hs|].
  apply Forall_app. split; [exact Hs|]. constructor; [|constructor].
  split; [discriminate|]. rewrite <- E. apply strip_idem.
Qed.

(* ------------------------------------------------------------------ *)
(** ** The layout of [parse_and_add_content] *)

Lemma add_section_eq : forall sections story num sc,
  lookup num sections = Some sc ->
  add_section sections story num =
  story ++ Paragraph (num ++ ". " ++ section_title_of num sc) HeadingStyle ::
    (if nonempty (content_text_of sc) then add_content_with_formatting [] (content_text_of sc)
     else []) ++ [Spacer 10 144].
Proof.
  intros sections story num sc H. unfold add_section, content_text_of. rewrite H.
  destruct (split_once chr_nl sc) as [|a [|rest [|b l]]]; cbn [nonempty];
    try (rewrite <- !app_assoc; reflexivity).
  destruct (nonempty (strip rest)); [|rewrite <- !app_assoc; reflexivity].
  rewrite formatting_app, <- !app_assoc. reflexivity.
Qed.

Lemma fold_add_sections : forall content l story,
  (forall i, In i l -> 1 <= i <= 16) ->
  fold_left (add_section (collect_sections content)) (map digits l) story =
  story ++ concat (map (section_blocks content) l).
Proof.
  intros content l. induction l as [|i l IH]; intros story Hl; cbn [map fold_left concat].
  - rewrite app_nil_r. reflexivity.
  - rewrite (add_section_eq _ _ _ (find_section content i)).
    + rewrite IH by (intros j Hj; apply Hl; right; exact Hj).
      unfold section_blocks. rewrite <- !app_assoc. reflexivity.
    + rewrite collect_sections_eq. apply (lookup_sections (find_section content)).
      apply Hl. left. reflexivity.
Qed.

Lemma parse_layout : forall story content,
  parse_and_add_content story content =
  story ++ concat (map (section_blocks content) (seq 1 16)).
Proof.
  intros story content. unfold parse_and_add_content.
  replace (sorted_by_int (map fst (collect_sections content))) with (map digits (seq 1 16))
    by (rewrite collect_sections_eq, map_map; reflexivity).
  apply fold_add_sections. intros i Hi. apply in_seq in Hi. lia.
Qed.

(* ------------------------------------------------------------------ *)
(** ** The functional-requirements table *)

Lemma spec_fr_row_shape : forall l r, spec_fr_row l = Some r ->
  length r = 4 /\ Forall (fun c => has_char "|" c = false /\ strip c = c) r.
Proof.
  intros l r H. unfold spec_fr_row in H. cbv zeta in H.
  set (cells := map strip (split_on "|" (strip l))) in H.
  destruct (prefixb "FR" (strip l) && has_char "|" (strip l) && Nat.leb 4 (length cells)) eqn:E;
    [|discriminate].
  assert (Hr : r = firstn 4 cells) by congruence. clear H. subst r.
  apply andb_prop in E as [_ E]. apply Nat.leb_le in E.
  split; [rewrite length_firstn; lia|].
  apply Forall_forall. intros c Hc.
  assert (Hin : In c cells).
  { rewrite <- (firstn_skipn 4 cells). apply in_or_app. left. exact Hc. }
  unfold cells in Hin. apply in_map_iff in Hin as [x [<- Hx]]. split; [|apply strip_idem].
  apply has_char_strip.
  exact (proj1 (Forall_forall _ _) (split_on_no_sep "|" (strip l)) x Hx).
Qed.

Lemma spec_fr_rows_shape : forall ls,
  Forall (fun r => length r = 4 /\ Forall (fun c => has_char "|" c = false /\ strip c = c) r)
    (spec_fr_rows ls).
Proof.
  induction ls as [|l ls IH]; cbn [spec_fr_rows]; [constructor|].
  destruct (spec_fr_row l) as [r|] eqn:E; [|exact IH].
  constructor; [apply (spec_fr_row_shape l r E) | exact IH].
Qed.

(* ------------------------------------------------------------------ *)
(** ** The title and cleaning helpers *)

Lemma mt_seq_cont : forall r1 r2 st k x, mt (RSeq r1 r2) st k = Some x ->
  exists st' u, ms_rest st = u ++ ms_rest st' /\ mt r2 st' k = Some x.
Proof.
  intros r1 r2 st k x H. rewrite mt_seq in H. apply mt_cont in H as [st' [u [H E]]].
  exists st', u. split; [exact E | exact H].
Qed.

Lemma mt_lit_char : forall c r st k x, mt (RSeq (RLit [c]) r) st k = Some x ->
  has_char c (ms_rest st) = true.
Proof.
  intros c r st k x H. cbn [mt] in H.
  destruct (ms_rest st) as [|a t]; [discriminate|].
  cbn [prefixb] in H. destruct (Ascii.eqb c a) eqn:E; [|discriminate].
  cbn [has_char existsb]. rewrite E. reflexivity.
Qed.

Lemma has_char_suffix : forall c u v, has_char c v = true -> has_char c (u ++ v) = true.
Proof. intros c u v H. rewrite has_char_app, H, orb_true_r. reflexivity. Qed.

(** The period of [\d+\.] has to be in the text. *)
Lemma mt_period : forall r st x, mt (RSeq digits_plus (RSeq (RLit ".") r)) st Some = Some x ->
  has_char "." (ms_rest st) = true.
Proof.
  intros r st x H. apply mt_seq_cont in H as [st1 [u [E H]]].
  rewrite E. apply has_char_suffix. exact (mt_lit_char _ _ _ _ _ H).
Qed.

(** The line break of [.*?\n] has to be in the text. *)
Lemma mt_after_line_nl : forall st x, mt after_line st Some = Some x ->
  has_char chr_nl (ms_rest st) = true.
Proof.
  intros st x H. unfold after_line in H. apply mt_seq_cont in H as [st1 [u [E H]]].
  rewrite E. apply has_char_suffix. exact (mt_lit_char _ _ _ _ _ H).
Qed.

Lemma mt_clean_nl : forall st x,
  (mt clean_section_pattern st Some = Some x \/ mt clean_subsection_pattern st Some = Some x) ->
  has_char chr_nl (ms_rest st) = true.
Proof.
  intros st x [H|H]; unfold clean_section_pattern, clean_subsection_pattern in H.
  - apply mt_seq_cont in H as [st1 [u1 [E1 H]]].
    apply mt_seq_lit_inv in H.
    apply mt_seq_cont in H as [st2 [u2 [E2 H]]].
    apply mt_after_line_nl in H.
    rewrite E1. apply has_char_suffix.
    unfold advance in E2. cbn [ms_rest] in E2.
    rewrite <- (firstn_skipn (length ("." : str)) (ms_rest st1)), E2, app_assoc. apply has_char_suffix. exact H.
  - apply mt_seq_cont in H as [st1 [u1 [E1 H]]].
    apply mt_seq_lit_inv in H.
    apply mt_seq_cont in H as [st2 [u2 [E2 H]]].
    apply mt_seq_cont in H as [st3 [u3 [E3 H]]].
    apply mt_after_line_nl in H.
    rewrite E1. apply has_char_suffix.
    unfold advance in E2. cbn [ms_rest] in E2.
    rewrite <- (firstn_skipn (length ("." : str)) (ms_rest st1)), E2, E3, !app_assoc. apply has_char_suffix. exact H.
Qed.

Lemma mt_title_period : forall st x,
  (mt section_title_pattern st Some = Some x \/ mt subsection_title_pattern st Some = Some x) ->
  has_char "." (ms_rest st) = true.
Proof.
  intros st x [H|H]; exact (mt_period _ _ _ H).
Qed.

Lemma mt_clean_period : forall st x,
  (mt clean_section_pattern st Some = Some x \/ mt clean_subsection_pattern st Some = Some x) ->
  has_char "." (ms_rest st) = true.
Proof.
  intros st x [H|H]; exact (mt_period _ _ _ H).
Qed.

(** [q] fails at every position of a text on which it fails. *)
Lemma has_char_skipn : forall c s k, has_char c s = false -> has_char c (skipn k s) = false.
Proof.
  intros c s k. revert s. induction k as [|k IH]; intros s H; [exact H|].
  destruct s as [|a s]; [reflexivity|]. cbn [skipn]. apply IH.
  cbn [has_char existsb] in H. apply orb_false_iff in H as [_ H]. exact H.
Qed.

Lemma search_no_char : forall r c s,
  (forall p' t x, mt r (MS p' t []) Some = Some x -> has_char c t = true) ->
  has_char c s = false -> search r s = None.
Proof.
  intros r c s Hr Hs. unfold search.
  apply (search_from_none _ (has_char c)).
  - intros p' t H. destruct (mt r (MS p' t []) Some) as [x|] eqn:E; [|contradiction].
    exact (Hr _ _ _ E).
  - intros k _. apply has_char_skipn. exact Hs.
Qed.


Lemma ws_not_digit : forall c, is_ws c = true -> is_digit c = false.
Proof.
  intros c H. unfold is_ws, is_digit in *.
  destruct (Nat.leb_spec 48 (nat_of_ascii c)); [|reflexivity].
  destruct (Nat.leb_spec 9 (nat_of_ascii c)), (Nat.leb_spec (nat_of_ascii c) 13),
    (Nat.leb_spec 28 (nat_of_ascii c)), (Nat.leb_spec (nat_of_ascii c) 32);
    cbn in H; try discriminate; lia.
Qed.

(** [\d+] on a run of digits followed by a non-digit or the end. *)
Lemma mt_digits_then : forall r p d X caps k x,
  d <> [] -> forallb is_digit d = true ->
  (X = [] \/ exists c t, X = c :: t /\ is_digit c = false) ->
  mt r (MS (prev_after p d) X caps) k = Some x ->
  mt (RSeq digits_plus r) (MS p (d ++ X) caps) k = Some x.
Proof.
  intros r p d X caps k x Hd Hdig HX H. unfold digits_plus.
  rewrite mt_seq, mt_rep. cbn [ms_rest].
  assert (Hrun : run is_digit (d ++ X) = length d).
  { destruct HX as [-> | [c [t [-> Hc]]]].
    - rewrite app_nil_r. apply run_all. exact Hdig.
    - apply run_app_stop; assumption. }
  rewrite Hrun. apply try_counts_greedy_first.
  - destruct d; [congruence | simpl; lia].
  - rewrite advance_app. exact H.
Qed.

(** [\d+\.] on a section number and its period. *)
Lemma mt_number_period : forall r p d X caps k x,
  d <> [] -> forallb is_digit d = true ->
  mt r (MS (prev_after (prev_after p d) ".") X caps) k = Some x ->
  mt (RSeq digits_plus (RSeq (RLit ".") r)) (MS p (d ++ "." ++ X) caps) k = Some x.
Proof.
  intros r p d X caps k x Hd Hdig H. apply mt_digits_then; [exact Hd | exact Hdig | |].
  - right. exists "."%char, X. split; reflexivity.
  - rewrite mt_seq_lit by reflexivity.
    change (MS (prev_after p d) ("." ++ X) caps) with (MS (prev_after p d) (("." : str) ++ X) caps).
    rewrite advance_app. exact H.
Qed.

Lemma mt_ws_prefix : forall r p w T Y caps k x,
  w <> [] -> forallb is_ws w = true -> title_ok T = true ->
  mt r (MS (prev_after p w) (T ++ Y) caps) k = Some x ->
  mt (RSeq ws_plus r) (MS p (w ++ T ++ Y) caps) k = Some x.
Proof.
  intros r p w T Y caps k x Hw Hws HT H.
  destruct (title_ok_inv T HT) as [t0 [ts [ET [H0 _]]]].
  unfold ws_plus. rewrite mt_seq, mt_rep. cbn [ms_rest].
  assert (Hrun : run is_ws (w ++ T ++ Y) = length w)
    by (rewrite ET; cbn [app]; apply run_app_stop; assumption).
  rewrite Hrun. apply try_counts_greedy_first.
  - destruct w; [congruence | simpl; lia].
  - rewrite advance_app. exact H.
Qed.

Lemma title_no_nl_char : forall T c, title_ok T = true -> In c T -> Ascii.eqb chr_nl c = false.
Proof.
  intros T c HT Hc. apply andb_prop in HT as [_ HT].
  unfold has_no_nl in HT. rewrite forallb_forall in HT. specialize (HT c Hc).
  unfold not_nl in HT. destruct (Ascii.eqb_spec chr_nl c) as [<-|]; [discriminate | reflexivity].
Qed.

(** [after_line]: a lazy run up to the line break, then a greedy group
    of the rest, on a title line and the text after it. *)
Lemma mt_after_line : forall p T body caps, title_ok T = true ->
  exists st, mt after_line (MS p (T ++ chr_nl :: body) caps) Some = Some st /\
    ms_caps st = (1, body) :: caps.
Proof.
  intros p T body caps HT. unfold after_line, lazy_any.
  rewrite mt_seq, mt_rep. cbn [ms_rest]. unfold counts. rewrite any_char_run.
  eexists. split.
  2: shelve.
  apply (try_counts_seq_first _ 0 _ (length T)).
  - rewrite length_app. cbn [length]. lia.
  - intros c' Hc'. unfold advance. cbn [ms_rest ms_prev ms_caps].
    rewrite skipn_app. replace (c' - length T) with 0 by lia. cbn [skipn].
    destruct (skipn c' T) as [|a t] eqn:Es.
    + apply (f_equal (@length ascii)) in Es. rewrite length_skipn in Es. cbn [length] in Es. lia.
    + cbn [mt app ms_rest prefixb].
      assert (Ha : In a T) by (rewrite <- (firstn_skipn c' T), Es; apply in_or_app; right; left; reflexivity).
      rewrite (title_no_nl_char T a HT Ha). reflexivity.
  - rewrite advance_app. rewrite mt_seq_lit by reflexivity.
    change (chr_nl :: body) with ([chr_nl] ++ body). rewrite advance_app.
    cbn [mt ms_rest]. rewrite any_char_run.
    apply try_counts_greedy_first; [lia|]. reflexivity.
  Unshelve.
  cbn [ms_caps ms_rest advance]. rewrite skipn_all. cbn [length]. rewrite Nat.sub_0_r, firstn_all.
  reflexivity.
Qed.

(** [line_rest]: a lazy group up to the first line break or the end. *)
Lemma mt_line_rest : forall p T G caps, title_ok T = true ->
  (G = [] \/ exists g, G = chr_nl :: g) ->
  exists st, mt line_rest (MS p (T ++ G) caps) Some = Some st /\ ms_caps st = (1, T) :: caps.
Proof.
  intros p T G caps HT HG. unfold line_rest. rewrite mt_lazy_group. cbn [ms_rest ms_prev ms_caps].
  assert (Hnl : has_no_nl T = true) by (apply andb_prop in HT as [_ H]; exact H).
  rewrite (run_not_nl_line _ _ Hnl HG).
  eexists. split.
  - apply (try_counts_seq_first _ 0 _ (length T)); [lia| |].
    + intros c' Hc'. cbv zeta. rewrite skipn_app. replace (c' - length T) with 0 by lia. cbn [skipn].
      destruct (skipn c' T) as [|a t] eqn:Es.
      * apply (f_equal (@length ascii)) in Es. rewrite length_skipn in Es. cbn [length] in Es. lia.
      * assert (Ha : In a T) by (rewrite <- (firstn_skipn c' T), Es; apply in_or_app; right; left; reflexivity).
        cbn [mt app ms_rest prefixb]. rewrite (title_no_nl_char T a HT Ha). reflexivity.
    + cbv zeta. rewrite skipn_len_app, firstn_len_app.
      destruct HG as [-> | [g ->]]; cbn [mt ms_rest prefixb]; [reflexivity|].
      rewrite Ascii.eqb_refl. reflexivity.
  - reflexivity.
Qed.

(** The search of a pattern that matches at the start of the text. *)
Lemma search_group_here : forall r s st v rest, mt r (MS None s []) Some = Some st ->
  ms_caps st = (1, v) :: rest -> exists m, search r s = Some m /\ group m 1 = v.
Proof.
  intros r s st v rest H Hc. unfold search. rewrite (search_from_here _ _ _ _ _ H).
  eexists. split; [reflexivity|]. unfold group. cbn [rm_caps]. rewrite Hc. reflexivity.
Qed.

Lemma has_no_nl_char : forall u, has_no_nl u = true -> has_char chr_nl u = false.
Proof.
  intros u H. unfold has_no_nl, has_char in *.
  apply Bool.not_true_iff_false. intro E.
  apply existsb_exists in E as [a [Ha Ea]]. rewrite forallb_forall in H.
  specialize (H a Ha). unfold not_nl in H.
  apply Ascii.eqb_eq in Ea. subst a. rewrite Ascii.eqb_refl in H. discriminate.
Qed.

(** The text after [\d+\.\s+] at a section number: the digits, the period,
    a whitespace run and a title. *)
Lemma mt_section_head : forall r d w T Y k x,
  d <> [] -> forallb is_digit d = true -> w <> [] -> forallb is_ws w = true -> title_ok T = true ->
  mt r (MS (prev_after (prev_after (prev_after None d) ".") w) (T ++ Y) []) k = Some x ->
  mt (RSeq digits_plus (RSeq (RLit ".") (RSeq ws_plus r))) (MS None (d ++ "." ++ w ++ T ++ Y) []) k
    = Some x.
Proof.
  intros r d w T Y k x Hd Hdig Hw Hws HT H.
  apply mt_number_period; [exact Hd | exact Hdig|].
  apply mt_ws_prefix; assumption.
Qed.

Lemma mt_subsection_head : forall r d d2 w T Y k x,
  d <> [] -> forallb is_digit d = true -> d2 <> [] -> forallb is_digit d2 = true ->
  w <> [] -> forallb is_ws w = true -> title_ok T = true ->
  mt r (MS (prev_after (prev_after (prev_after (prev_after None d) ".") d2) w) (T ++ Y) []) k
    = Some x ->
  mt (RSeq digits_plus (RSeq (RLit ".") (RSeq digits_plus (RSeq ws_plus r))))
     (MS None (d ++ "." ++ d2 ++ w ++ T ++ Y) []) k = Some x.
Proof.
  intros r d d2 w T Y k x Hd Hdig Hd2 Hdig2 Hw Hws HT H.
  apply mt_number_period; [exact Hd | exact Hdig|].
  apply mt_digits_then; [exact Hd2 | exact Hdig2 | |].
  - right. destruct w as [|a w']; [congruence|]. exists a, (w' ++ T ++ Y). split; [reflexivity|].
    apply ws_not_digit. cbn [forallb] in Hws. apply andb_prop in Hws as [Ha _]. exact Ha.
  - apply mt_ws_prefix; assumption.
Qed.


(** ** Where the project-name search starts *)

Lemma prefixb_app_long : forall w a b, length w <= length a -> prefixb w (a ++ b) = prefixb w a.
Proof.
  induction w as [|x w IH]; intros [|y a] b H; cbn [length] in H; try reflexivity; [lia|].
  cbn [app prefixb]. rewrite IH by lia. reflexivity.
Qed.

(** A match of the project-name pattern starting inside [u] would be an
    occurrence of the literal starting inside [u]; to see it, the text up
    to the end of the literal that follows [u] is enough. *)
Lemma prefixb_first_occurrence : forall u k (X : str), k < length u ->
  prefixb "Product Requirements Document" (skipn k u ++ "Product Requirements Document" ++ X) =
  prefixb "Product Requirements Document" (skipn k (u ++ "Product Requirements Document")).
Proof.
  intros u k X Hk. rewrite skipn_app.
  replace (k - length u) with 0 by lia. cbn [skipn]. rewrite app_assoc.
  apply prefixb_app_long. rewrite length_app, length_skipn. lia.
Qed.

(* ================================================================== *)
(** * The claims *)

(** C1: whatever the input, the extraction yields the sixteen ordinals
    1..16 in order, and a section with neither a strict nor a loose match
    gets its default title and the body
    "No content provided for this section.". *)
Theorem sections_always_sixteen : forall content,
  map fst (extracted_sections content) = map digits (seq 1 16) /\
  (forall i, 1 <= i <= 16 ->
     search (strict_pattern i (get_default_section_title (digits i))) content = None ->
     search (simple_pattern i) content = None ->
     lookup (digits i) (extracted_sections content) =
       Some (get_default_section_title (digits i), placeholder_text)).
Proof.
  intro content. rewrite extracted_sections_eq. split.
  - rewrite map_map. reflexivity.
  - intros i Hi Hs Hl.
    rewrite (lookup_sections (fun j => (section_title_of (digits j) (find_section content j),
                                         content_text_of (find_section content j))) i Hi).
    assert (E : find_section content i = placeholder_section i).
    { unfold find_section. rewrite Hs, Hl. reflexivity. }
    rewrite E. destruct (placeholder_section_view i Hi) as [-> ->]. reflexivity.
Qed.

Lemma sections_always_sixteen_witness :
  lookup (digits 1) (extracted_sections "") =
    Some (get_default_section_title (digits 1), placeholder_text).
Proof.
  apply (proj2 (sections_always_sixteen "") 1); [lia | vm_compute; reflexivity | vm_compute; reflexivity].
Defined.

(** C7: the functional-requirements routine appends one table whose row 0
    is the fixed header; a line gives a data row exactly when, trimmed, it
    starts with "FR", contains '|' and splits into at least four trimmed
    cells (the first four form the row), in line order; lines starting with
    "ID" give nothing; the placeholder row is added exactly when no data row
    was found. *)
Theorem fr_table_rows : forall story content,
  add_functional_requirements_table story content =
    story ++ [Table (header_row :: spec_fr_rows (split_on chr_nl content) ++
                     if nonempty (spec_fr_rows (split_on chr_nl content))
                     then [] else [placeholder_row])] /\
  (forall line, prefixb "ID" (strip line) = true -> spec_fr_row line = None).
Proof.
  intros story content. split.
  - unfold add_functional_requirements_table. rewrite fold_table_step.
    destruct (spec_fr_rows (split_on chr_nl content)) as [|r rs]; simpl.
    + reflexivity.
    + rewrite app_nil_r. reflexivity.
  - intros line H.
    assert (HF : prefixb "FR" (strip line) = false).
    { destruct (strip line) as [|a l]; [discriminate|].
      destruct a as [[] [] [] [] [] [] [] []]; vm_compute in H |- *;
        solve [discriminate | reflexivity]. }
    unfold spec_fr_row. rewrite HF. reflexivity.
Qed.

(** C10: [extract_subsections] is keyed by the minor ordinal alone: its
    keys are distinct, the value under a key is the text of the last match
    with that minor ordinal, and "1.1 ..." followed by "2.1 ..." gives one
    entry for two markers. *)
Theorem subsections_keyed_by_minor : forall content,
  NoDup (map fst (extract_subsections content)) /\
  (forall k, lookup k (extract_subsections content) =
             last_capture k (finditer subsection_pattern content)) /\
  (let ex := text ["1.1 Purpose"; "2.1 Other"] in
   length (finditer subsection_pattern ex) = 2 /\
   extract_subsections ex = [("1" : str, ("2.1 Other" : str))]).
Proof.
  intro content. split; [|split].
  - apply fold_dict_set_nodup. constructor.
  - intro k. unfold extract_subsections, last_capture.
    apply (fold_dict_set_lookup (fun m => group m 2) rm_text).
  - split; vm_compute; reflexivity.
Qed.

(** C4 (as the code has it): [generate] never calls
    [add_functional_requirements_table]; section 4 goes through
    [add_content_with_formatting] like every other section, so the story
    it builds contains no table at all. *)
Theorem generate_builds_no_table : forall date_str content,
  Forall not_table (generate date_str content).
Proof.
  intros date_str content. unfold generate. apply parse_no_table.
  apply Forall_app. split; [|repeat constructor].
  apply toc_no_table. unfold create_cover_page. repeat constructor.
Qed.

(** C4, counterexample: a document whose section 4 is a pipe table of
    requirements gets no table block. *)
Lemma functional_requirements_not_tabulated :
  existsb is_table
    (generate "October 17, 2026"
       (text ["4. Functional Requirements"; "ID | Requirement | Priority | Deps";
              "FR01|Login|High|None"])) = false.
Proof. vm_compute. reflexivity. Qed.

(** C3 (code_bug): in mixed mode a line is taken as a bullet when its
    trimmed form starts with '-' or '*', whitespace after the marker or
    not.  The spec example comes out as stated, but "-5 degrees" after a
    bullet is merged into the bullet list instead of being a paragraph. *)
Theorem mixed_mode_bullet_without_space :
  add_content_with_formatting []
    (text ["Intro line"; "- item one"; "- item two"; "More text"]) =
    [para "Intro line"; ListFlowable ["item one" : str; "item two" : str]; para "More text"] /\
  add_content_with_formatting [] (text ["- item"; "-5 degrees"]) =
    [ListFlowable ["item" : str; "5 degrees" : str]].
Proof. split; vm_compute; reflexivity. Qed.

(** C8 (code_bug): the capture of section 16 stops at a later "17. ",
    since the lookahead of the loop's patterns names ordinal [i+1] for
    every [i], 16 included. *)
Theorem section16_capture_stops_at_17 :
  let s := text ["16. Points Requiring Further Clarification"; "Do step 17. later"] in
  option_map (fun m => group m 1)
    (search (strict_pattern 16 (get_default_section_title (digits 16))) s) =
    Some (text [""; "Do step "]) /\
  lookup (digits 16) (extracted_sections s) =
    Some (get_default_section_title (digits 16), ("Do step" : str)).
Proof. split; vm_compute; reflexivity. Qed.

(** C5 (counterexample): the title may come from the line after the
    header, since [\s*] also crosses line breaks; and a header with a
    colon and nothing after it yields the colon. *)
Lemma project_name_from_next_line :
  extract_project_name (text ["Product Requirements Document"; "Acme Portal"]) = "Acme Portal" /\
  extract_project_name "Product Requirements Document:" = ":".
Proof. split; vm_compute; reflexivity. Qed.

(** C5 (amended): when the literal "Product Requirements Document" does
    not occur, the default "Project Requirements Document" is returned.
    When its first occurrence, anywhere in the text (at the start of a
    line or not), is followed by an optional colon, then any whitespace
    (line breaks included), then a text [t] up to the end of its line that
    starts with neither whitespace nor a colon, the result is [t] trimmed;
    [t] lies on the header's line only when no line break comes before
    it. The two examples of the specification hold. *)
Theorem project_name_extraction :
  (forall content,
     occurs_by (prefixb "Product Requirements Document") content = false ->
     extract_project_name content = "Project Requirements Document") /\
  (forall u colon sp c t' rest,
     (forall k, k < length u ->
        prefixb "Product Requirements Document"
          (skipn k (u ++ "Product Requirements Document")) = false) ->
     (colon = [] \/ colon = ":") -> forallb is_ws sp = true -> is_ws c = false ->
     c <> ":"%char -> has_no_nl (c :: t') = true ->
     (rest = [] \/ exists r, rest = chr_nl :: r) ->
     extract_project_name (u ++ "Product Requirements Document" ++ colon ++ sp ++ (c :: t') ++ rest) =
       strip (c :: t')) /\
  extract_project_name (text ["Product Requirements Document: Acme Portal"; "..."]) = "Acme Portal" /\
  extract_project_name "no such header" = "Project Requirements Document".
Proof.
  split; [|split; [|split]].
  - intros content H. unfold extract_project_name. rewrite project_name_default by exact H.
    reflexivity.
  - intros u colon sp c t' rest Hfirst Hcolon Hsp Hc Hcc Ht Hrest.
    unfold extract_project_name, search.
    rewrite search_from_app.
    + destruct (mt_project_name (prev_after None u) colon sp c t' rest Hcolon Hsp Hc Hcc Ht Hrest)
        as [st [E Hcaps]].
      rewrite (search_from_here _ _ _ _ _ E). unfold group. cbn [rm_caps].
      rewrite Hcaps. reflexivity.
    + intros k Hk. destruct (mt project_name_pattern _ Some) eqn:E; [|reflexivity].
      exfalso. assert (Hp := project_name_starts _ _ ltac:(rewrite E; discriminate)).
      rewrite (prefixb_first_occurrence u k _ Hk) in Hp. rewrite (Hfirst k Hk) in Hp.
      discriminate.
  - vm_compute. reflexivity.
  - vm_compute. reflexivity.
Qed.

Lemma project_name_extraction_witness :
  extract_project_name ("# " ++ "Product Requirements Document" ++ ":" ++ " " ++ ("Acme Portal" : str) ++ [chr_nl]) =
    strip "Acme Portal" /\
  extract_project_name "Draft notes" = "Project Requirements Document".
Proof.
  destruct project_name_extraction as [Hdef [Hline _]]. split.
  - apply (Hline "# " ":" " " "A"%char "cme Portal" [chr_nl]).
    + intros k Hk. cbn [length list_ascii_of_string] in Hk.
      destruct k as [|[|k]]; [vm_compute; reflexivity | vm_compute; reflexivity | lia].
    + right. reflexivity.
    + reflexivity.
    + reflexivity.
    + discriminate.
    + reflexivity.
    + right. exists []. reflexivity.
  - apply Hdef. vm_compute. reflexivity.
Defined.

(** C9 (counterexample): a line made of a bare marker, followed by
    another line, switches the formatter to its mixed mode, since the line
    break after the marker is whitespace for [\s]; the claim expects the
    pure paragraph mode, as no line has whitespace after its marker. *)
Lemma bare_marker_line_switches_mode :
  add_content_with_formatting [] (text ["a"; "-"; "b"]) =
    [para "a"; ListFlowable [[]]; para "b"].
Proof. vm_compute. reflexivity. Qed.

(** C9 (amended): the formatter takes its mixed mode exactly when some
    line, after leading whitespace, has a marker '-' or '*' followed by a
    whitespace character, or is a bare marker and not the last line. In
    that mode every trimmed non-blank line that merely starts with '-' or
    '*' is a bullet item with its first character dropped, consecutive
    items form one list, and every other line is a paragraph. A body whose
    marker lines all have no whitespace after the marker, and none of them
    a bare marker, is formatted in the pure paragraph mode, markers left
    in the text. *)
Theorem bullet_modes :
  (forall story content,
     match search bullet_pattern content with Some _ => true | None => false end =
       lines_trigger (split_on chr_nl content) /\
     (lines_trigger (split_on chr_nl content) = true ->
        add_content_with_formatting story content =
          story ++ mixed_blocks (filter nonempty (map strip (split_on chr_nl content))))) /\
  add_content_with_formatting [] (text ["- a"; "-5 degrees"; "*emphasis*"]) =
    [ListFlowable (map list_ascii_of_string ["a"; "5 degrees"; "emphasis*"])] /\
  add_content_with_formatting [] (text ["-5 degrees"; "*emphasis*"]) =
    [para (text ["-5 degrees"; "*emphasis*"])].
Proof.
  split; [|split; vm_compute; reflexivity].
  intros story content. split; [apply bullet_mode_lines|].
  intro H. rewrite <- bullet_mode_lines in H.
  unfold add_content_with_formatting.
  destruct (search bullet_pattern content); [|discriminate].
  rewrite format_lines_blocks by (left; reflexivity). reflexivity.
Qed.

Lemma bullet_modes_witness :
  add_content_with_formatting [] (text ["a"; "-"; "b"]) =
    [] ++ mixed_blocks (filter nonempty (map strip (split_on chr_nl (text ["a"; "-"; "b"])))).
Proof.
  destruct bullet_modes as [H _]. apply (proj2 (H [] _)). vm_compute. reflexivity.
Defined.

(** C2: on an input made of a preamble, then the sixteen canonical
    headers in order, each on a line of its own and followed by its body,
    where no body (nor the preamble) holds a stray marker (a numeral
    [1 .. 17], a period and a whitespace character) and every body but the
    last is empty or ends with a line break, section [i] has its canonical
    title and the trimmed text between header [i] and the next header (or
    the end of the input) as its body. *)
Theorem well_formed_sections : forall b : nat -> str,
  (forall j, j <= 16 -> no_markers (b j) = true) ->
  (forall j, j < 16 -> ends_nl (b j) = true) ->
  forall i, 1 <= i <= 16 ->
  lookup (digits i) (extracted_sections (well_formed_doc b)) =
    Some (get_default_section_title (digits i), strip (b i)).
Proof.
  intros b Hb Hnl i Hi.
  rewrite extracted_sections_eq.
  rewrite (lookup_sections
    (fun j => (section_title_of (digits j) (find_section (well_formed_doc b) j),
               content_text_of (find_section (well_formed_doc b) j))) i Hi).
  f_equal.
  destruct (Nat.eq_dec i 16) as [->|Hne].
  - (* the last section: the capture runs to the end, a final line break apart *)
    set (X := chr_nl :: b 16).
    assert (HoccX : occurs_by (starts_mark (digits 17 ++ ".")) X = false)
      by (apply body_no_mark; [lia | exact Hb]).
    destruct (ends_nl X) eqn:EX.
    + destruct (ends_nl_split X ltac:(discriminate) EX) as [X' HX'].
      assert (Hfind : find_section (well_formed_doc b) 16 =
                digits 16 ++ ". " ++ get_default_section_title (digits 16) ++ X').
      { assert (HY : chr_nl :: b 16 ++ post_doc b 16 = X' ++ [chr_nl])
          by (rewrite post_doc_16, app_nil_r; exact HX').
        assert (H1 : length X' <= length (chr_nl :: b 16 ++ post_doc b 16))
          by (rewrite HY, length_app; simpl; lia).
        assert (H2 : forall c, c < length X' ->
                  at_boundary 17 (skipn c (chr_nl :: b 16 ++ post_doc b 16)) = false).
        { intros c Hc. rewrite HY. unfold at_boundary. apply orb_false_iff. split.
          - rewrite <- HX'. apply occurs_by_skipn; [exact HoccX|].
            rewrite HX', length_app. simpl. lia.
          - destruct (dollar_ok _) eqn:E; [exfalso|reflexivity].
            apply dollar_ok_len in E. rewrite length_skipn, length_app in E. simpl in E. lia. }
        assert (H3 : at_boundary 17 (skipn (length X') (chr_nl :: b 16 ++ post_doc b 16)) = true).
        { rewrite HY, skipn_len_app. unfold at_boundary. apply orb_true_iff. right. reflexivity. }
        rewrite (find_section_wf b 16 (length X') ltac:(lia) Hb Hnl H1 H2 H3), HY.
        rewrite firstn_len_app. reflexivity. }
      rewrite Hfind.
      destruct X' as [|x X''].
      * (* the input ends with the header of section 16 and a line break *)
        assert (E16 : b 16 = []).
        { unfold X in HX'. simpl in HX'. injection HX' as E. exact E. }
        (* a closed instance: both components evaluate *)
        rewrite E16. vm_compute. reflexivity.
      * unfold X in HX'. injection HX' as Hx Hb16. subst x.
        rewrite Hb16, title_of_header by (lia || (right; eexists; reflexivity)).
        rewrite content_of_header by lia. rewrite strip_app_nl. reflexivity.
    + assert (Hfind : find_section (well_formed_doc b) 16 =
                digits 16 ++ ". " ++ get_default_section_title (digits 16) ++ X).
      { assert (HY : chr_nl :: b 16 ++ post_doc b 16 = X)
          by (rewrite post_doc_16, app_nil_r; reflexivity).
        assert (H1 : length X <= length (chr_nl :: b 16 ++ post_doc b 16))
          by (rewrite HY; lia).
        assert (H2 : forall c, c < length X ->
                  at_boundary 17 (skipn c (chr_nl :: b 16 ++ post_doc b 16)) = false).
        { intros c Hc. rewrite HY. unfold at_boundary. apply orb_false_iff. split.
          - apply occurs_by_skipn; [exact HoccX | exact Hc].
          - destruct (dollar_ok _) eqn:E; [exfalso|reflexivity].
            apply dollar_ok_ends_nl in E. rewrite ends_nl_skipn_eq in E by exact Hc.
            congruence. }
        assert (H3 : at_boundary 17 (skipn (length X) (chr_nl :: b 16 ++ post_doc b 16)) = true).
        { rewrite HY, skipn_all. unfold at_boundary. apply orb_true_iff. right. reflexivity. }
        rewrite (find_section_wf b 16 (length X) ltac:(lia) Hb Hnl H1 H2 H3), HY.
        rewrite firstn_all. reflexivity. }
      rewrite Hfind. unfold X.
      rewrite title_of_header by (lia || (right; eexists; reflexivity)).
      rewrite content_of_header by lia. reflexivity.
  - (* sections 1 to 15: the capture stops at the next header *)
    destruct (capture_before_16 b i ltac:(lia) Hb Hnl) as [Hbefore Hat].
    assert (Hfind : find_section (well_formed_doc b) i =
              digits i ++ ". " ++ get_default_section_title (digits i) ++ chr_nl :: b i).
    { rewrite (find_section_wf b i (length (chr_nl :: b i))); try assumption.
      - change (chr_nl :: b i ++ post_doc b i) with ((chr_nl :: b i) ++ post_doc b i).
        rewrite firstn_len_app. reflexivity.
      - cbn [length]. rewrite length_app. lia. }
    rewrite Hfind. f_equal.
    + apply title_of_header; [exact Hi | right; eexists; reflexivity].
    + apply content_of_header. exact Hi.
Qed.

Lemma well_formed_sections_witness :
  lookup (digits 3) (extracted_sections (well_formed_doc sample_bodies)) =
    Some (get_default_section_title (digits 3), strip (sample_bodies 3)).
Proof.
  apply well_formed_sections.
  - intros j Hj. do 17 (destruct j as [|j]; [vm_compute; reflexivity|]). lia.
  - intros j Hj. do 16 (destruct j as [|j]; [vm_compute; reflexivity|]). lia.
  - lia.
Defined.




(* ================================================================== *)
(** * Further properties of the code *)

(** [extract_sections] always returns the sixteen keys "1" .. "16" in
    order; the value under a key is either the bare header line
    "k. <default title>" (no body) or a piece of the input that starts with
    "k.". *)
Theorem extract_sections_shape : forall content,
  map fst (extract_sections content) = map digits (seq 1 16) /\
  (forall k v, lookup k (extract_sections content) = Some v ->
     v = k ++ ". " ++ get_default_section_title k \/
     ((exists u w, content = u ++ v ++ w) /\ prefixb (k ++ ".") v = true)).
Proof.
  intro content. split.
  - rewrite extract_sections_eq, map_map. reflexivity.
  - intros k v H. rewrite extract_sections_eq in H.
    apply lookup_map_keys in H as [pn [Hin [-> ->]]]. unfold section_value.
    destruct (search (fst pn) content) as [m|] eqn:E; [right | left; reflexivity].
    apply search_parts in E as [E1 [u E2]]. split.
    + exists (rm_before m), (rm_after m). exact E1.
    + rewrite E2, (section_patterns_lit pn Hin). apply prefixb_app.
Qed.

Lemma extract_sections_shape_witness :
  exists v, lookup (digits 2) (extract_sections sample_prd) = Some v /\
    (v = digits 2 ++ ". " ++ get_default_section_title (digits 2) \/
     ((exists u w, sample_prd = u ++ v ++ w) /\ prefixb (digits 2 ++ ".") v = true)).
Proof.
  eexists. split; [vm_compute; reflexivity|].
  apply (proj2 (extract_sections_shape sample_prd)). vm_compute. reflexivity.
Defined.

(** In [extract_sections] the section-16 pattern ends in [$]: when it is
    found, its text runs to the end of the input, a single final line
    break apart; otherwise the value is the bare header. *)
Theorem extract_sections_last_to_end : forall content v,
  lookup "16" (extract_sections content) = Some v ->
  v = "16. Points Requiring Further Clarification" \/
  (exists u, content = u ++ v) \/ (exists u, content = u ++ v ++ [chr_nl]).
Proof.
  intros content v H. rewrite extract_sections_eq in H.
  apply lookup_map_keys in H as [pn [Hin [Ek ->]]].
  do 15 (destruct Hin as [<-|Hin]; [vm_compute in Ek; discriminate|]).
  destruct Hin as [<-|[]]. unfold section_value. cbn [fst snd].
  destruct (search _ content) as [m|] eqn:E; [right | left; reflexivity].
  pose proof (search_parts _ _ _ E) as [E1 _].
  unfold search in E. apply search_from_inv in E as [p' [t [st [Hmt [Ha _]]]]].
  apply mt_ends_dollar in Hmt. rewrite <- Ha in Hmt.
  destruct (rm_after m) as [|a [|b r]] eqn:Er; [| |discriminate].
  - left. exists (rm_before m). rewrite E1, app_nil_r. reflexivity.
  - right. exists (rm_before m). cbn [dollar_ok] in Hmt. apply Ascii.eqb_eq in Hmt. subst a.
    rewrite E1. reflexivity.
Qed.

Lemma extract_sections_last_to_end_witness :
  exists v, lookup "16" (extract_sections sample_prd) = Some v /\
    (v = "16. Points Requiring Further Clarification" \/
     (exists u, sample_prd = u ++ v) \/ (exists u, sample_prd = u ++ v ++ [chr_nl])).
Proof.
  eexists. split; [vm_compute; reflexivity|].
  apply extract_sections_last_to_end. vm_compute. reflexivity.
Defined.

(** [add_content_with_formatting] only appends to the story, and what it
    appends depends on the content alone: non-empty trimmed paragraphs in
    the normal style and non-empty bullet lists of trimmed items, never a
    heading, spacer, table or page break. *)
Theorem formatting_blocks : forall story content,
  add_content_with_formatting story content = story ++ add_content_with_formatting [] content /\
  Forall text_block (add_content_with_formatting [] content).
Proof.
  intros story content. split; [apply formatting_app|].
  unfold add_content_with_formatting. destruct (search bullet_pattern content).
  - apply format_lines_blocks_ok; constructor.
  - apply fold_paragraphs_ok.
Qed.

(** [parse_and_add_content] appends, for the sections 1 .. 16 in numeric
    order (not the string order of the keys), a heading "i. <title>", the
    formatted body of the section (only text blocks, nothing at all when
    the section's content text is empty) and a spacer. *)
Theorem parse_sections_layout : forall story content,
  parse_and_add_content story content =
  story ++ concat (map (fun i =>
    Paragraph (digits i ++ ". " ++ section_title_of (digits i) (find_section content i)) HeadingStyle ::
    section_body content i ++ [Spacer 10 144]) (seq 1 16)) /\
  (forall i, Forall text_block (section_body content i)) /\
  (forall i, content_text_of (find_section content i) = [] -> section_body content i = []).
Proof.
  intros story content. split; [|split].
  - apply parse_layout.
  - intro i. unfold section_body. destruct (nonempty _); [|constructor].
    unfold add_content_with_formatting. destruct (search bullet_pattern _).
    + apply format_lines_blocks_ok; constructor.
    + apply fold_paragraphs_ok.
  - intros i H. unfold section_body. rewrite H. reflexivity.
Qed.

Lemma parse_sections_layout_witness :
  content_text_of (find_section "1. Introduction" 1) = [] /\
  section_body "1. Introduction" 1 = [].
Proof.
  split; [vm_compute; reflexivity|].
  apply (proj2 (proj2 (parse_sections_layout [] "1. Introduction")) 1).
  vm_compute. reflexivity.
Defined.

(** The functional-requirements routine appends one table of at least two
    rows, each of exactly four cells, none of which contains '|' or
    leading or trailing whitespace. *)
Theorem fr_table_shape : forall story content, exists rows,
  add_functional_requirements_table story content = story ++ [Table rows] /\
  2 <= length rows /\
  Forall (fun r => length r = 4 /\ Forall (fun c => has_char "|" c = false /\ strip c = c) r) rows.
Proof.
  intros story content. unfold add_functional_requirements_table.
  rewrite fold_table_step.
  pose proof (spec_fr_rows_shape (split_on chr_nl content)) as Hd.
  destruct (spec_fr_rows (split_on chr_nl content)) as [|r0 rs] eqn:Ed.
  - eexists. split; [reflexivity|]. split; [vm_compute; lia|].
    repeat constructor.
  - eexists. split; [reflexivity|]. cbn [app length Nat.eqb].
    split; [lia|]. constructor; [|exact Hd].
    split; [reflexivity|]. repeat constructor.
Qed.

(** [clean_section_content] and [clean_subsection_content] on a header
    [d.] (resp. [d.d2]), a whitespace run [w] and a title [T] up to a line
    break: the result is the stripped rest after that line. As [\s+] also
    takes line breaks, when [w] contains one, [T] is the first non-blank
    line after the number and is dropped with it. *)
Theorem clean_content_after_title : forall d d2 w T body,
  d <> [] -> forallb is_digit d = true -> d2 <> [] -> forallb is_digit d2 = true ->
  w <> [] -> forallb is_ws w = true -> title_ok T = true ->
  clean_section_content (d ++ "." ++ w ++ T ++ chr_nl :: body) = strip body /\
  clean_subsection_content (d ++ "." ++ d2 ++ w ++ T ++ chr_nl :: body) = strip body.
Proof.
  intros d d2 w T body Hd Hdig Hd2 Hdig2 Hw Hws HT. split.
  - destruct (mt_after_line (prev_after (prev_after (prev_after None d) ".") w) T body [] HT)
      as [st [H Hc]].
    assert (Hm : mt clean_section_pattern (MS None (d ++ "." ++ w ++ T ++ chr_nl :: body) []) Some
                 = Some st)
      by (unfold clean_section_pattern; apply mt_section_head; assumption).
    destruct (search_group_here _ _ _ _ _ Hm Hc) as [m [Hs Hg]].
    unfold clean_section_content. rewrite Hs, Hg. reflexivity.
  - destruct (mt_after_line (prev_after (prev_after (prev_after (prev_after None d) ".") d2) w)
                T body [] HT) as [st [H Hc]].
    assert (Hm : mt clean_subsection_pattern
                   (MS None (d ++ "." ++ d2 ++ w ++ T ++ chr_nl :: body) []) Some = Some st)
      by (unfold clean_subsection_pattern; apply mt_subsection_head; assumption).
    destruct (search_group_here _ _ _ _ _ Hm Hc) as [m [Hs Hg]].
    unfold clean_subsection_content. rewrite Hs, Hg. reflexivity.
Qed.

Lemma clean_content_after_title_witness :
  clean_section_content ("1" ++ "." ++ [" "%char; chr_nl] ++ "Welcome" ++ chr_nl :: "More.") = "More." /\
  clean_subsection_content ("2" ++ "." ++ "1" ++ " " ++ "Scope" ++ chr_nl :: "  Body. ") = "Body.".
Proof.
  pose proof (clean_content_after_title "1" "1" [" "%char; chr_nl] "Welcome" "More."
    ltac:(discriminate) ltac:(reflexivity) ltac:(discriminate) ltac:(reflexivity)
    ltac:(discriminate) ltac:(reflexivity) ltac:(reflexivity)) as [H1 _].
  pose proof (clean_content_after_title "2" "1" " " "Scope" "  Body. "
    ltac:(discriminate) ltac:(reflexivity) ltac:(discriminate) ltac:(reflexivity)
    ltac:(discriminate) ltac:(reflexivity) ltac:(reflexivity)) as [_ H2].
  split; [rewrite H1 | rewrite H2]; vm_compute; reflexivity.
Defined.

(** [get_section_title] and [get_subsection_title] on a header [d.] (resp.
    [d.d2]), a whitespace run [w] and a title [T] that ends the text or a
    line: the title returned is [T] stripped. *)
Theorem title_of_header_line : forall n d d2 w T G,
  d <> [] -> forallb is_digit d = true -> d2 <> [] -> forallb is_digit d2 = true ->
  w <> [] -> forallb is_ws w = true -> title_ok T = true ->
  (G = [] \/ exists g, G = chr_nl :: g) ->
  get_section_title n (d ++ "." ++ w ++ T ++ G) = strip T /\
  get_subsection_title n (d ++ "." ++ d2 ++ w ++ T ++ G) = strip T.
Proof.
  intros n d d2 w T G Hd Hdig Hd2 Hdig2 Hw Hws HT HG. split.
  - destruct (mt_line_rest (prev_after (prev_after (prev_after None d) ".") w) T G [] HT HG)
      as [st [H Hc]].
    assert (Hm : mt section_title_pattern (MS None (d ++ "." ++ w ++ T ++ G) []) Some = Some st)
      by (unfold section_title_pattern; apply mt_section_head; assumption).
    destruct (search_group_here _ _ _ _ _ Hm Hc) as [m [Hs Hg]].
    unfold get_section_title. rewrite Hs, Hg. reflexivity.
  - destruct (mt_line_rest (prev_after (prev_after (prev_after (prev_after None d) ".") d2) w)
                T G [] HT HG) as [st [H Hc]].
    assert (Hm : mt subsection_title_pattern (MS None (d ++ "." ++ d2 ++ w ++ T ++ G) []) Some
                 = Some st)
      by (unfold subsection_title_pattern; apply mt_subsection_head; assumption).
    destruct (search_group_here _ _ _ _ _ Hm Hc) as [m [Hs Hg]].
    unfold get_subsection_title. rewrite Hs, Hg. reflexivity.
Qed.

Lemma title_of_header_line_witness :
  get_section_title "2" ("2" ++ "." ++ " " ++ "Goals and Objectives  " ++ chr_nl :: "x") =
    "Goals and Objectives" /\
  get_subsection_title "2.1" ("2" ++ "." ++ "1" ++ " " ++ "Scope" ++ []) = "Scope".
Proof.
  pose proof (title_of_header_line "2" "2" "1" " " "Goals and Objectives  " (chr_nl :: "x")
    ltac:(discriminate) ltac:(reflexivity) ltac:(discriminate) ltac:(reflexivity)
    ltac:(discriminate) ltac:(reflexivity) ltac:(reflexivity)
    ltac:(right; eexists; reflexivity)) as [H1 _].
  pose proof (title_of_header_line "2.1" "2" "1" " " "Scope" []
    ltac:(discriminate) ltac:(reflexivity) ltac:(discriminate) ltac:(reflexivity)
    ltac:(discriminate) ltac:(reflexivity) ltac:(reflexivity)
    ltac:(left; reflexivity)) as [_ H2].
  split; [rewrite H1 | rewrite H2]; vm_compute; reflexivity.
Defined.

(** Without a period in the text none of the four patterns matches: the
    titles are the defaults ([get_default_section_title n], resp.
    ["Subsection " + n]) and the cleaned content is the text after the first
    line, stripped (empty without a line break). *)
Theorem helpers_without_period : forall n content,
  has_char "." content = false ->
  get_section_title n content = get_default_section_title n /\
  get_subsection_title n content = ("Subsection " : str) ++ n /\
  clean_section_content content = after_first_line content /\
  clean_subsection_content content = after_first_line content.
Proof.
  intros n content H.
  assert (N1 : search section_title_pattern content = None)
    by (apply (search_no_char _ "."); [intros p' t x Hx; apply (mt_title_period (MS p' t []) x); auto | exact H]).
  assert (N2 : search subsection_title_pattern content = None)
    by (apply (search_no_char _ "."); [intros p' t x Hx; apply (mt_title_period (MS p' t []) x); auto | exact H]).
  assert (N3 : search clean_section_pattern content = None)
    by (apply (search_no_char _ "."); [intros p' t x Hx; apply (mt_clean_period (MS p' t []) x); auto | exact H]).
  assert (N4 : search clean_subsection_pattern content = None)
    by (apply (search_no_char _ "."); [intros p' t x Hx; apply (mt_clean_period (MS p' t []) x); auto | exact H]).
  unfold get_section_title, get_subsection_title, clean_section_content, clean_subsection_content.
  rewrite N1, N2, N3, N4. auto.
Qed.

Lemma helpers_without_period_witness :
  get_section_title "3" ("Personas" ++ chr_nl :: " Admins and guests ") = "User Personas and Roles" /\
  clean_section_content ("Personas" ++ chr_nl :: " Admins and guests ") = "Admins and guests".
Proof.
  destruct (helpers_without_period "3" ("Personas" ++ chr_nl :: " Admins and guests ")
              ltac:(vm_compute; reflexivity)) as [H1 [_ [H3 _]]].
  split; [rewrite H1 | rewrite H3]; vm_compute; reflexivity.
Defined.

(** A one-line text has nothing after its header line: both cleaners
    return the empty string. *)
Theorem clean_content_single_line : forall content,
  has_no_nl content = true ->
  clean_section_content content = [] /\ clean_subsection_content content = [].
Proof.
  intros content H. pose proof (has_no_nl_char content H) as Hc.
  assert (N1 : search clean_section_pattern content = None)
    by (apply (search_no_char _ chr_nl); [intros p' t x Hx; apply (mt_clean_nl (MS p' t []) x); auto | exact Hc]).
  assert (N2 : search clean_subsection_pattern content = None)
    by (apply (search_no_char _ chr_nl); [intros p' t x Hx; apply (mt_clean_nl (MS p' t []) x); auto | exact Hc]).
  unfold clean_section_content, clean_subsection_content, after_first_line.
  rewrite N1, N2, split_once_noline by exact H. split; reflexivity.
Qed.

Lemma clean_content_single_line_witness :
  clean_section_content "1. Introduction" = [] /\ clean_subsection_content "1.1 Purpose" = [].
Proof.
  split.
  - exact (proj1 (clean_content_single_line "1. Introduction" ltac:(vm_compute; reflexivity))).
  - exact (proj2 (clean_content_single_line "1.1 Purpose" ltac:(vm_compute; reflexivity))).
Defined.
